(** * Enhanced Pong backend: matchmaking, game engine and socket session handlers

    A shallow embedding of [backend/sockets/socketHandlers.js] (the classes
    [MatchmakingService] and [GameEngine], the socket event handlers,
    [handleMatchFound], [handlePlayerDisconnect]) and of the connection
    bookkeeping of [backend/server.js].

    Conventions of the embedding:
    - in the model of the server as a whole, JavaScript numbers that take
      part in the physics are exact rationals ([Q]); this serves the
      statements that rest on the control flow, on comparisons of stored
      values, on clamps and on assigned literals. What a tick computes is
      IEEE binary64 arithmetic: [GameEngine64] gives the tick on the engine's
      record of one match with the kernel's floats, and the statements about
      computed positions are made there;
    - the value a client sends as [paddleY] is a [jsval], so that
      non-numbers, NaN and the infinities are inputs of the model;
    - integers coming from the database (user ids, ratings) and scores are [Z];
    - a JavaScript [Map] is a [gmap]; the matchmaking queue is a list, in
      insertion order;
    - objects that are reachable through two references (the [players] array
      and the [gameState] object of a match, which the spread copy made by
      [GameEngine.createMatch] shares with the original match object) live in
      a heap and are referred to by location;
    - [setTimeout]/[setInterval] handles are keys of a scheduler map, and the
      callbacks are a first-order datatype run by [fire];
    - what a handler reads from its environment ([Date.now()], the two
      [Math.random()] draws of [resetBall], [uuidv4()]) is an explicit [Env]. *)

From Stdlib Require Import ZArith QArith Qminmax Qabs Qround Lia.
From Stdlib Require PrimFloat FloatOps Uint63.
From stdpp Require Import gmap strings.

Local Open Scope Z_scope.

(** ** JavaScript values *)

Inductive jsnum : Type :=
| Num (q : Q)
| NaN
| PosInf
| NegInf.

Inductive jsval : Type :=
| JUndefined
| JNull
| JBool (b : bool)
| JString (s : string)
| JNumber (n : jsnum).

Definition Qlt_bool (a b : Q) : bool := negb (Qle_bool b a).

(** [a < b] on numbers: every comparison with NaN is false. *)
Definition js_lt (a b : jsnum) : bool :=
  match a, b with
  | NaN, _ | _, NaN => false
  | Num x, Num y => Qlt_bool x y
  | _, NegInf => false
  | NegInf, _ => true
  | PosInf, _ => false
  | Num _, PosInf => true
  end.

Definition js_gt (a b : jsnum) : bool := js_lt b a.

(** [Math.min] and [Math.max]: NaN if either argument is NaN. *)
Definition Math_min (a b : jsnum) : jsnum :=
  match a, b with
  | NaN, _ | _, NaN => NaN
  | NegInf, _ | _, NegInf => NegInf
  | PosInf, c | c, PosInf => c
  | Num x, Num y => Num (Qmin x y)
  end.

Definition Math_max (a b : jsnum) : jsnum :=
  match a, b with
  | NaN, _ | _, NaN => NaN
  | PosInf, _ | _, PosInf => PosInf
  | NegInf, c | c, NegInf => c
  | Num x, Num y => Num (Qmax x y)
  end.

(** [Number.isFinite] *)
Definition is_finite (v : jsval) : bool :=
  match v with
  | JNumber (Num _) => true
  | _ => false
  end.

(** ** Data *)

Record Ball : Type := {
  ball_x : Q;
  ball_y : Q;
  ball_vx : Q;
  ball_vy : Q
}.

Record Paddle : Type := {
  paddle_y : jsnum;
  score : Z
}.

Record GameState : Type := {
  ball : Ball;
  paddles_left : Paddle;
  paddles_right : Paddle;
  lastUpdate : Q
}.

(** The [player] object built by the [matchmaking:join] handler (its [socket]
    field is represented by [socketId]). *)
Record PlayerData : Type := {
  userId : Z;
  socketId : string;
  username : string;
  displayName : string;
  rating : Z
}.

Record Range : Type := {
  range_min : Z;
  range_max : Z
}.

(** A queue entry [{...player, joinedAt, ratingRange}]; [ready] is the
    property the [match:ready] handler adds later (absent means falsy). *)
Record QueueEntry : Type := {
  player : PlayerData;
  joinedAt : Q;
  ratingRange : Range;
  ready : bool
}.

Inductive Status : Type :=
| starting
| playing
| paused
| completed.

#[global] Instance Status_eq_dec : EqDecision Status.
Proof. solve_decision. Defined.

(** The match object returned by [MatchmakingService.createMatch]. [players]
    and [gameState] are heap locations. [currentMatch] is the property that
    [handleMatchFound] writes on whatever [activeMatches.get(player.socketId)]
    returns. *)
Record Match : Type := {
  id : string;
  roomId : string;
  players : nat;
  status : Status;
  createdAt : Q;
  gameState : nat;
  currentMatch : option string
}.

(** Which element of the [players] array a reference points to. *)
Inductive PlayerIx : Type :=
| players0
| players1.

(** The object [{...matchData, lastTick, tickInterval}] stored in
    [GameEngine.matches]: a copy of every field of the match object (so its
    [status] is a field of its own, while [players] and [gameState] point to
    the same heap objects), plus the engine's fields. [winner] is undefined
    until [endMatch] assigns it. *)
Record EngineMatch : Type := {
  copy : Match;
  lastTick : Q;
  tickInterval : option nat;
  winner : option PlayerIx
}.

(** Connection record of [server.js] ([socket] is the key of the map). *)
Record Connection : Type := {
  conn_userId : option Z;
  conn_currentMatch : option string;
  conn_joinedAt : Q
}.

Record Socket : Type := {
  sock_id : string;
  sock_userId : Z;
  sock_username : string
}.

(** Timer callbacks, with what their closures capture. *)
Inductive Callback : Type :=
| TickInterval (matchId : string)
| ExpandSearch (uid : Z)
| Countdown (matchId room : string)
| GraceTimeout (matchId room : string) (playersRef : nat) (disconnectedId : string).

Record Timer : Type := {
  callback : Callback;
  delay : Q;
  repeating : bool
}.

(** Emitted socket.io events. *)
Inductive Target : Type :=
| ToSocket (sid : string)
| ToRoom (room : string)
| ToRoomExcept (room sid : string).

Inductive Message : Type :=
| ErrorMsg (message : string)
| MatchmakingQueued (position estimatedWait : Z)
| MatchmakingLeft
| MatchFound (matchId room : string) (opponentName : option string) (opponentRating : option Z)
| MatchCountdown (seconds : Z)
| MatchStart
| PlayerDisconnected (name : string)
| MatchEnded (reason : string) (winnerName : option string).

Record Env : Type := {
  now : Q;
  random1 : Q;
  random2 : Q;
  uuid : string
}.

Record World : Type := {
  activeConnections : gmap string Connection;
  activeMatches : gmap string Match;
  queue : list QueueEntry;
  searchTimeouts : gmap Z nat;
  matches : gmap string EngineMatch;
  playersHeap : gmap nat (QueueEntry * QueueEntry);
  stateHeap : gmap nat GameState;
  timers : gmap nat Timer;
  fresh : nat;
  rooms : gmap string (gset string);
  outbox : list (Target * Message)
}.

(** ** Field updates of the world *)

Definition set_activeConnections (f : gmap string Connection -> gmap string Connection) (w : World) : World :=
  {| activeConnections := f (activeConnections w); activeMatches := activeMatches w;
     queue := queue w; searchTimeouts := searchTimeouts w; matches := matches w;
     playersHeap := playersHeap w; stateHeap := stateHeap w; timers := timers w;
     fresh := fresh w; rooms := rooms w; outbox := outbox w |}.

Definition set_activeMatches (f : gmap string Match -> gmap string Match) (w : World) : World :=
  {| activeConnections := activeConnections w; activeMatches := f (activeMatches w);
     queue := queue w; searchTimeouts := searchTimeouts w; matches := matches w;
     playersHeap := playersHeap w; stateHeap := stateHeap w; timers := timers w;
     fresh := fresh w; rooms := rooms w; outbox := outbox w |}.

Definition set_queue (f : list QueueEntry -> list QueueEntry) (w : World) : World :=
  {| activeConnections := activeConnections w; activeMatches := activeMatches w;
     queue := f (queue w); searchTimeouts := searchTimeouts w; matches := matches w;
     playersHeap := playersHeap w; stateHeap := stateHeap w; timers := timers w;
     fresh := fresh w; rooms := rooms w; outbox := outbox w |}.

Definition set_searchTimeouts (f : gmap Z nat -> gmap Z nat) (w : World) : World :=
  {| activeConnections := activeConnections w; activeMatches := activeMatches w;
     queue := queue w; searchTimeouts := f (searchTimeouts w); matches := matches w;
     playersHeap := playersHeap w; stateHeap := stateHeap w; timers := timers w;
     fresh := fresh w; rooms := rooms w; outbox := outbox w |}.

Definition set_matches (f : gmap string EngineMatch -> gmap string EngineMatch) (w : World) : World :=
  {| activeConnections := activeConnections w; activeMatches := activeMatches w;
     queue := queue w; searchTimeouts := searchTimeouts w; matches := f (matches w);
     playersHeap := playersHeap w; stateHeap := stateHeap w; timers := timers w;
     fresh := fresh w; rooms := rooms w; outbox := outbox w |}.

Definition set_playersHeap (f : gmap nat (QueueEntry * QueueEntry) -> gmap nat (QueueEntry * QueueEntry))
    (w : World) : World :=
  {| activeConnections := activeConnections w; activeMatches := activeMatches w;
     queue := queue w; searchTimeouts := searchTimeouts w; matches := matches w;
     playersHeap := f (playersHeap w); stateHeap := stateHeap w; timers := timers w;
     fresh := fresh w; rooms := rooms w; outbox := outbox w |}.

Definition set_stateHeap (f : gmap nat GameState -> gmap nat GameState) (w : World) : World :=
  {| activeConnections := activeConnections w; activeMatches := activeMatches w;
     queue := queue w; searchTimeouts := searchTimeouts w; matches := matches w;
     playersHeap := playersHeap w; stateHeap := f (stateHeap w); timers := timers w;
     fresh := fresh w; rooms := rooms w; outbox := outbox w |}.

Definition set_timers (f : gmap nat Timer -> gmap nat Timer) (w : World) : World :=
  {| activeConnections := activeConnections w; activeMatches := activeMatches w;
     queue := queue w; searchTimeouts := searchTimeouts w; matches := matches w;
     playersHeap := playersHeap w; stateHeap := stateHeap w; timers := f (timers w);
     fresh := fresh w; rooms := rooms w; outbox := outbox w |}.

Definition set_fresh (f : nat -> nat) (w : World) : World :=
  {| activeConnections := activeConnections w; activeMatches := activeMatches w;
     queue := queue w; searchTimeouts := searchTimeouts w; matches := matches w;
     playersHeap := playersHeap w; stateHeap := stateHeap w; timers := timers w;
     fresh := f (fresh w); rooms := rooms w; outbox := outbox w |}.

Definition set_rooms (f : gmap string (gset string) -> gmap string (gset string)) (w : World) : World :=
  {| activeConnections := activeConnections w; activeMatches := activeMatches w;
     queue := queue w; searchTimeouts := searchTimeouts w; matches := matches w;
     playersHeap := playersHeap w; stateHeap := stateHeap w; timers := timers w;
     fresh := fresh w; rooms := f (rooms w); outbox := outbox w |}.

Definition set_outbox (f : list (Target * Message) -> list (Target * Message)) (w : World) : World :=
  {| activeConnections := activeConnections w; activeMatches := activeMatches w;
     queue := queue w; searchTimeouts := searchTimeouts w; matches := matches w;
     playersHeap := playersHeap w; stateHeap := stateHeap w; timers := timers w;
     fresh := fresh w; rooms := rooms w; outbox := f (outbox w) |}.

(** ** The JavaScript runtime: timers, rooms, emitted events *)

(** [setTimeout]/[setInterval]: the handle is the key of the new scheduler entry. *)
Definition schedule (t : Timer) (w : World) : nat * World :=
  let h := fresh w in
  (h, set_fresh S (set_timers <[h := t]> w)).

(** [clearTimeout]/[clearInterval] *)
Definition clearTimer (h : nat) (w : World) : World :=
  set_timers (delete h) w.

Definition emit (to : Target) (msg : Message) (w : World) : World :=
  set_outbox (fun o => o ++ [(to, msg)]) w.

(** [socket.join(room)] *)
Definition join (sid room : string) (w : World) : World :=
  set_rooms (fun r => <[room := {[sid]} ∪ default ∅ (r !! room)]> r) w.

(** The sockets an emitted event reaches. *)
Definition recipients (w : World) (to : Target) : gset string :=
  match to with
  | ToSocket sid => {[sid]}
  | ToRoom room => default ∅ (rooms w !! room)
  | ToRoomExcept room sid => default ∅ (rooms w !! room) ∖ {[sid]}
  end.

(** Status update of a match object's field, used for both kinds of record. *)
Definition with_status (s : Status) (m : Match) : Match :=
  {| id := id m; roomId := roomId m; players := players m; status := s;
     createdAt := createdAt m; gameState := gameState m; currentMatch := currentMatch m |}.

Definition with_currentMatch (c : option string) (m : Match) : Match :=
  {| id := id m; roomId := roomId m; players := players m; status := status m;
     createdAt := createdAt m; gameState := gameState m; currentMatch := c |}.

(** ** class MatchmakingService *)

Module MatchmakingService.

(** [removeFromQueue(userId)]: filter the queue, then clear the expansion
    timeout of that user if there is one. *)
Definition removeFromQueue (uid : Z) (w : World) : World :=
  let w1 := set_queue (List.filter (fun p => negb (userId (player p) =? uid))) w in
  match searchTimeouts w1 !! uid with
  | Some timeout => set_searchTimeouts (delete uid) (clearTimer timeout w1)
  | None => w1
  end.

(** [calculateRatingRange(rating, timeInQueue)] *)
Definition calculateRatingRange (r : Z) (timeInQueue : Q) : Range :=
  let baseRange := 150 in
  let expansionRate := 50 in
  let expansionInterval := 15000%Q in
  let expansions := Qfloor (timeInQueue / expansionInterval) in
  let currentRange := baseRange + expansions * expansionRate in
  {| range_min := Z.max 800 (r - currentRange);
     range_max := Z.min 3000 (r + currentRange) |}.

(** The timeout registration of [setExpandingSearch(userId)]; the callback
    [expandSearch] is below, after [findMatch]. *)
Definition setExpandingSearch (uid : Z) (w : World) : World :=
  let '(timeout, w1) :=
    schedule {| callback := ExpandSearch uid; delay := 15000; repeating := false |} w in
  set_searchTimeouts <[uid := timeout]> w1.

(** [createMatch(player1, player2)]: allocates the [players] array and the
    [gameState] object and returns the match object. *)
Definition createMatch (env : Env) (player1 player2 : QueueEntry) (w : World) : Match * World :=
  let matchId := uuid env in
  let gameRoom := ("game-" +:+ matchId)%string in
  let playersRef := fresh w in
  let stateRef := S (fresh w) in
  let state :=
    {| ball := {| ball_x := 400; ball_y := 300; ball_vx := 5; ball_vy := 3 |};
       paddles_left := {| paddle_y := Num 250; score := 0 |};
       paddles_right := {| paddle_y := Num 250; score := 0 |};
       lastUpdate := now env |} in
  ({| id := matchId; roomId := gameRoom; players := playersRef; status := starting;
      createdAt := now env; gameState := stateRef; currentMatch := None |},
   set_fresh (fun n => S (S n))
     (set_stateHeap <[stateRef := state]>
        (set_playersHeap <[playersRef := (player1, player2)]> w))).

Definition inRange (r : Z) (rg : Range) : bool :=
  (range_min rg <=? r) && (r <=? range_max rg).

(** The loop of [findMatch]: the first entry of the queue, other than the
    player's own, for which [playerInRange || opponentInRange]. *)
Fixpoint findOpponent (p : QueueEntry) (q : list QueueEntry) : option QueueEntry :=
  match q with
  | [] => None
  | opponent :: rest =>
      if userId (player opponent) =? userId (player p) then findOpponent p rest
      else
        let playerInRange := inRange (rating (player opponent)) (ratingRange p) in
        let opponentInRange := inRange (rating (player p)) (ratingRange opponent) in
        if playerInRange || opponentInRange then Some opponent
        else findOpponent p rest
  end.

(** [findMatch(player)] *)
Definition findMatch (env : Env) (p : QueueEntry) (w : World) : option Match * World :=
  match findOpponent p (queue w) with
  | Some opponent =>
      let w1 := removeFromQueue (userId (player p)) w in
      let w2 := removeFromQueue (userId (player opponent)) w1 in
      let '(m, w3) := createMatch env p opponent w2 in
      (Some m, w3)
  | None => (None, w)
  end.

(** [addToQueue(player)] *)
Definition addToQueue (env : Env) (p : PlayerData) (w : World) : option Match * World :=
  let w1 := removeFromQueue (userId p) w in
  let queueEntry :=
    {| player := p; joinedAt := now env;
       ratingRange := calculateRatingRange (rating p) 0; ready := false |} in
  let w2 := set_queue (fun q => q ++ [queueEntry]) w1 in
  let w3 := setExpandingSearch (userId p) w2 in
  findMatch env queueEntry w3.

(** In-place update of the first queue entry of a user. *)
Fixpoint updateEntry (uid : Z) (f : QueueEntry -> QueueEntry) (q : list QueueEntry) : list QueueEntry :=
  match q with
  | [] => []
  | e :: rest =>
      if userId (player e) =? uid then f e :: rest else e :: updateEntry uid f rest
  end.

(** The callback [expandSearch] of [setExpandingSearch]: the result of
    [findMatch] is not used by the caller. *)
Definition expandSearch (env : Env) (uid : Z) (w : World) : World :=
  match List.find (fun p => userId (player p) =? uid) (queue w) with
  | None => w
  | Some p =>
      let timeInQueue := (now env - joinedAt p)%Q in
      let p' := {| player := player p; joinedAt := joinedAt p;
                   ratingRange := calculateRatingRange (rating (player p)) timeInQueue;
                   ready := ready p |} in
      let w1 := set_queue (updateEntry uid (fun _ => p')) w in
      let w2 := snd (findMatch env p' w1) in
      setExpandingSearch uid w2
  end.

End MatchmakingService.

(** ** class GameEngine *)

Module GameEngine.

Definition tickRate : Q := 60.

Definition with_lastTick (t : Q) (m : EngineMatch) : EngineMatch :=
  {| copy := copy m; lastTick := t; tickInterval := tickInterval m; winner := winner m |}.

Definition with_tickInterval (h : option nat) (m : EngineMatch) : EngineMatch :=
  {| copy := copy m; lastTick := lastTick m; tickInterval := h; winner := winner m |}.

Definition with_lastUpdate (t : Q) (gs : GameState) : GameState :=
  {| ball := ball gs; paddles_left := paddles_left gs;
     paddles_right := paddles_right gs; lastUpdate := t |}.

(** [startGameLoop(matchId)] *)
Definition startGameLoop (matchId : string) (w : World) : World :=
  match matches w !! matchId with
  | None => w
  | Some m =>
      let '(h, w1) :=
        schedule {| callback := TickInterval matchId; delay := 1000 / tickRate;
                    repeating := true |} w in
      set_matches <[matchId := with_tickInterval (Some h) m]> w1
  end.

(** [createMatch(matchData)]: stores a spread copy of the match object. *)
Definition createMatch (env : Env) (matchData : Match) (w : World) : World :=
  let w1 :=
    set_matches <[id matchData := {| copy := matchData; lastTick := now env;
                                     tickInterval := None; winner := None |}]> w in
  startGameLoop (id matchData) w1.

(** [ball.y >= paddle.y - 50 && ball.y <= paddle.y + 50]; the result is the
    paddle's centre when the test succeeds. With a NaN centre both
    comparisons are false, with an infinite one at least one of them is. *)
Definition withinPaddle (by_ : Q) (p : Paddle) : option Q :=
  match paddle_y p with
  | Num py =>
      if Qle_bool (py - 50) by_ && Qle_bool by_ (py + 50) then Some py else None
  | _ => None
  end.

(** The deflection off a paddle, with the new [vy] as an exact rational
    (in binary64: [GameEngine64.deflect]). *)
Definition deflect (b : Ball) (newVx py : Q) : Ball :=
  let relativeIntersectY := ((py - ball_y b) / 50)%Q in
  {| ball_x := ball_x b; ball_y := ball_y b; ball_vx := newVx;
     ball_vy := (- relativeIntersectY * 5)%Q |}.

(** [handlePaddleCollision(match)], on the ball and the two paddles. *)
Definition handlePaddleCollision (b : Ball) (leftPaddle rightPaddle : Paddle) : Ball :=
  let b1 :=
    if Qle_bool (ball_x b) 20 && Qle_bool 10 (ball_x b) then
      match withinPaddle (ball_y b) leftPaddle with
      | Some py => deflect b (Qabs (ball_vx b)) py
      | None => b
      end
    else b in
  if Qle_bool 780 (ball_x b1) && Qle_bool (ball_x b1) 790 then
    match withinPaddle (ball_y b1) rightPaddle with
    | Some py => deflect b1 (- Qabs (ball_vx b1))%Q py
    | None => b1
    end
  else b1.

(** [resetBall(match)], with the two [Math.random()] draws as arguments. *)
Definition resetBall (r1 r2 : Q) : Ball :=
  {| ball_x := 400; ball_y := 300;
     ball_vx := if Qlt_bool 0.5 r1 then 5 else (-5)%Q;
     ball_vy := ((r2 - 0.5) * 6)%Q |}.

(** [endMatch(matchId)]. Heap cells are never freed, so the [gameState]
    reference of a stored match always resolves; were it dangling, the
    model leaves [winner] as it was. *)
Definition endMatch (matchId : string) (w : World) : World :=
  match matches w !! matchId with
  | None => w
  | Some m =>
      let w1 := match tickInterval m with
                | Some h => clearTimer h w
                | None => w
                end in
      let win :=
        match stateHeap w !! gameState (copy m) with
        | Some gs =>
            let leftScore := score (paddles_left gs) in
            let rightScore := score (paddles_right gs) in
            Some (if leftScore >? rightScore then players0 else players1)
        | None => winner m
        end in
      set_matches <[matchId := {| copy := with_status completed (copy m);
                                  lastTick := lastTick m;
                                  tickInterval := tickInterval m;
                                  winner := win |}]> w1
  end.

Definition incrScore (p : Paddle) : Paddle :=
  {| paddle_y := paddle_y p; score := score p + 1 |}.

(** The body of [updateGameState] on the game state object: move the ball,
    bounce on the walls, paddle collisions, scoring. The sums and products
    are those of [Q], without the rounding of the doubles the code computes
    with ([GameEngine64.updateGameState] has that): which branch a tick
    takes near a threshold, and the last digits of a computed position or
    velocity, can differ from the code's. What is stated about this function
    below holds whichever branch is taken. *)
Definition stepState (env : Env) (deltaTime : Q) (gs : GameState) : GameState :=
  let b := ball gs in
  let b1 := {| ball_x := (ball_x b + ball_vx b * deltaTime * 60)%Q;
               ball_y := (ball_y b + ball_vy b * deltaTime * 60)%Q;
               ball_vx := ball_vx b; ball_vy := ball_vy b |} in
  let b2 :=
    if Qle_bool (ball_y b1) 10 || Qle_bool 590 (ball_y b1) then
      {| ball_x := ball_x b1; ball_y := Qmax 10 (Qmin 590 (ball_y b1));
         ball_vx := ball_vx b1; ball_vy := (- ball_vy b1)%Q |}
    else b1 in
  let b3 := handlePaddleCollision b2 (paddles_left gs) (paddles_right gs) in
  if Qle_bool (ball_x b3) 0 then
    {| ball := resetBall (random1 env) (random2 env);
       paddles_left := paddles_left gs;
       paddles_right := incrScore (paddles_right gs);
       lastUpdate := lastUpdate gs |}
  else if Qle_bool 800 (ball_x b3) then
    {| ball := resetBall (random1 env) (random2 env);
       paddles_left := incrScore (paddles_left gs);
       paddles_right := paddles_right gs;
       lastUpdate := lastUpdate gs |}
  else
    {| ball := b3; paddles_left := paddles_left gs;
       paddles_right := paddles_right gs; lastUpdate := lastUpdate gs |}.

(** [updateGameState(matchId)]: the tick callback. *)
Definition updateGameState (env : Env) (matchId : string) (w : World) : World :=
  match matches w !! matchId with
  | None => w
  | Some m =>
      if negb (bool_decide (status (copy m) = playing)) then w
      else
        match stateHeap w !! gameState (copy m) with
        | None => w
        | Some gs =>
            let deltaTime := ((now env - lastTick m) / 1000)%Q in
            let w1 := set_matches <[matchId := with_lastTick (now env) m]> w in
            let gs1 := stepState env deltaTime gs in
            let w2 := set_stateHeap <[gameState (copy m) := gs1]> w1 in
            let w3 :=
              if (11 <=? score (paddles_left gs1)) || (11 <=? score (paddles_right gs1))
              then endMatch matchId w2
              else w2 in
            set_stateHeap (alter (with_lastUpdate (now env)) (gameState (copy m))) w3
        end
  end.

(** The argument of the [game:input] handler, when it is an object; an absent
    [paddleY] is [JUndefined]. *)
Record Input : Type := { paddleY : jsval }.

(** [validateInput(input)] *)
Definition validateInput (input : Input) : bool :=
  match paddleY input with
  | JNumber n =>
      if js_lt n (Num 50) || js_gt n (Num 550) then false else true
  | _ => false
  end.

(** [match.players.findIndex(p => p.userId === playerId)]; [None] is -1. *)
Definition findIndex (playerId : Z) (ps : QueueEntry * QueueEntry) : option PlayerIx :=
  if userId (player (fst ps)) =? playerId then Some players0
  else if userId (player (snd ps)) =? playerId then Some players1
  else None.

Definition with_paddle_y (v : jsnum) (p : Paddle) : Paddle :=
  {| paddle_y := v; score := score p |}.

(** [updatePlayerInput(matchId, playerId, input)]. After [validateInput]
    the value is a number, so the last branch of the inner match is not
    reached. *)
Definition updatePlayerInput (matchId : string) (playerId : Z) (input : Input) (w : World)
  : bool * World :=
  match matches w !! matchId with
  | None => (false, w)
  | Some m =>
      if negb (bool_decide (status (copy m) = playing)) then (false, w)
      else
        match playersHeap w !! players (copy m), stateHeap w !! gameState (copy m) with
        | Some ps, Some gs =>
            match findIndex playerId ps with
            | None => (false, w)
            | Some playerIndex =>
                if negb (validateInput input) then (false, w)
                else
                  match paddleY input with
                  | JNumber n =>
                      let v := Math_max (Num 50) (Math_min (Num 550) n) in
                      let gs' :=
                        match playerIndex with
                        | players0 =>
                            {| ball := ball gs;
                               paddles_left := with_paddle_y v (paddles_left gs);
                               paddles_right := paddles_right gs;
                               lastUpdate := lastUpdate gs |}
                        | players1 =>
                            {| ball := ball gs;
                               paddles_left := paddles_left gs;
                               paddles_right := with_paddle_y v (paddles_right gs);
                               lastUpdate := lastUpdate gs |}
                        end in
                      (true, set_stateHeap <[gameState (copy m) := gs']> w)
                  | _ => (false, w)
                  end
            end
        | _, _ => (false, w)
        end
  end.

(** [getMatchState(matchId)] *)
Definition getMatchState (matchId : string) (w : World) : option GameState :=
  match matches w !! matchId with
  | Some m => stateHeap w !! gameState (copy m)
  | None => None
  end.

(** [removeMatch(matchId)] *)
Definition removeMatch (matchId : string) (w : World) : World :=
  let w1 :=
    match matches w !! matchId with
    | Some m =>
        match tickInterval m with
        | Some h => clearTimer h w
        | None => w
        end
    | None => w
    end in
  set_matches (delete matchId) w1.

End GameEngine.

(** ** class GameEngine: the tick in binary64

    [updateGameState] with JavaScript's own numbers, on the object that
    [GameEngine.matches] holds for one match (the map lookup and the
    [!match] guard are those of [GameEngine.updateGameState] above). The
    [gameState] object is a field here: the tick reaches it through this one
    reference. Scores are counters ([score++] from 0), kept as [Z]. *)

Module GameEngine64.
Import PrimFloat.

Record Ball : Type := {
  x : float;
  y : float;
  vx : float;
  vy : float
}.

Record Paddle : Type := {
  paddle_y : float;
  score : Z
}.

Record GameState : Type := {
  ball : Ball;
  paddles_left : Paddle;
  paddles_right : Paddle;
  lastUpdate : float
}.

Record Match : Type := {
  status : Status;
  lastTick : float;
  tickInterval : option nat;
  winner : option PlayerIx;
  gameState : GameState
}.

(** [Date.now()] is a whole number of milliseconds; the [Math.random()]
    draws of [resetBall] are doubles. *)
Record Env : Type := {
  now : Z;
  random1 : float;
  random2 : float
}.

(** The double of a millisecond count (exact below 2^53, which covers every
    time value of ECMAScript). *)
Definition number (ms : Z) : float := of_uint63 (Uint63.of_Z ms).

(** The rational a finite double stands for. *)
Definition exact (f : float) : option Q :=
  match FloatOps.Prim2SF f with
  | SpecFloat.S754_zero _ => Some 0%Q
  | SpecFloat.S754_finite s m e =>
      let v := (inject_Z (Zpos m) * Qpower 2 e)%Q in
      Some (if s then (- v)%Q else v)
  | _ => None
  end.

Definition is_exactly (f : float) (q : Q) : bool :=
  match exact f with
  | Some q' => Qeq_bool q' q
  | None => false
  end.

(** [Math.max] and [Math.min] of two numbers: NaN if either is NaN, and +0
    is larger than -0. *)
Definition Math_max (a b : float) : float :=
  if is_nan a || is_nan b then nan
  else if (a <? b)%float then b
  else if (b <? a)%float then a
  else match classify a with
       | FloatClass.NZero => b
       | _ => a
       end.

Definition Math_min (a b : float) : float :=
  if is_nan a || is_nan b then nan
  else if (a <? b)%float then a
  else if (b <? a)%float then b
  else match classify a with
       | FloatClass.PZero => b
       | _ => a
       end.

(** [ball.y >= paddle.y - 50 && ball.y <= paddle.y + 50] *)
Definition hits (b : Ball) (p : Paddle) : bool :=
  ((paddle_y p - 50 <=? y b) && (y b <=? paddle_y p + 50))%float.

Definition deflect (b : Ball) (newVx : float) (p : Paddle) : Ball :=
  let relativeIntersectY := ((paddle_y p - y b) / 50)%float in
  {| x := x b; y := y b; vx := newVx; vy := ((- relativeIntersectY) * 5)%float |}.

(** [handlePaddleCollision(match)] *)
Definition handlePaddleCollision (b : Ball) (leftPaddle rightPaddle : Paddle) : Ball :=
  let b1 :=
    if (x b <=? 20)%float && (10 <=? x b)%float && hits b leftPaddle
    then deflect b (abs (vx b)) leftPaddle
    else b in
  if (780 <=? x b1)%float && (x b1 <=? 790)%float && hits b1 rightPaddle
  then deflect b1 (- abs (vx b1))%float rightPaddle
  else b1.

(** [resetBall(match)] *)
Definition resetBall (r1 r2 : float) : Ball :=
  {| x := 400; y := 300;
     vx := if (0.5 <? r1)%float then 5%float else (-5)%float;
     vy := ((r2 - 0.5) * 6)%float |}.

Definition incrScore (p : Paddle) : Paddle :=
  {| paddle_y := paddle_y p; score := score p + 1 |}.

(** [endMatch(matchId)] on the record; the second component is the handle
    given to [clearInterval], if any. *)
Definition endMatch (m : Match) : Match * option nat :=
  let leftScore := score (paddles_left (gameState m)) in
  let rightScore := score (paddles_right (gameState m)) in
  ({| status := completed; lastTick := lastTick m; tickInterval := tickInterval m;
      winner := Some (if leftScore >? rightScore then players0 else players1);
      gameState := gameState m |},
   tickInterval m).

Definition with_lastUpdate (t : float) (m : Match) : Match :=
  {| status := status m; lastTick := lastTick m; tickInterval := tickInterval m;
     winner := winner m;
     gameState := {| ball := ball (gameState m);
                     paddles_left := paddles_left (gameState m);
                     paddles_right := paddles_right (gameState m);
                     lastUpdate := t |} |}.

(** [updateGameState(matchId)] on the record of the match. *)
Definition updateGameState (env : Env) (m : Match) : Match * option nat :=
  if negb (bool_decide (status m = playing)) then (m, None)
  else
    let now := number (now env) in
    let deltaTime := ((now - lastTick m) / 1000)%float in
    let gs := gameState m in
    let b := ball gs in
    let b1 := {| x := (x b + vx b * deltaTime * 60)%float;
                 y := (y b + vy b * deltaTime * 60)%float;
                 vx := vx b; vy := vy b |} in
    let b2 :=
      if (y b1 <=? 10)%float || (590 <=? y b1)%float then
        {| x := x b1; y := Math_max 10 (Math_min 590 (y b1));
           vx := vx b1; vy := (- vy b1)%float |}
      else b1 in
    let b3 := handlePaddleCollision b2 (paddles_left gs) (paddles_right gs) in
    let gs1 :=
      if (x b3 <=? 0)%float then
        {| ball := resetBall (random1 env) (random2 env);
           paddles_left := paddles_left gs;
           paddles_right := incrScore (paddles_right gs);
           lastUpdate := lastUpdate gs |}
      else if (800 <=? x b3)%float then
        {| ball := resetBall (random1 env) (random2 env);
           paddles_left := incrScore (paddles_left gs);
           paddles_right := paddles_right gs;
           lastUpdate := lastUpdate gs |}
      else
        {| ball := b3; paddles_left := paddles_left gs;
           paddles_right := paddles_right gs; lastUpdate := lastUpdate gs |} in
    let m1 := {| status := status m; lastTick := now; tickInterval := tickInterval m;
                 winner := winner m; gameState := gs1 |} in
    let '(m2, cleared) :=
      if (11 <=? score (paddles_left gs1)) || (11 <=? score (paddles_right gs1))
      then endMatch m1
      else (m1, None) in
    (with_lastUpdate now m2, cleared).

End GameEngine64.

(** ** Socket event handlers of socketHandlers.js *)

Module SocketHandlers.

(** [players.find(pred)] on the two-element array. *)
Definition findPlayer (pred : QueueEntry -> bool) (ps : QueueEntry * QueueEntry) : option QueueEntry :=
  if pred (fst ps) then Some (fst ps)
  else if pred (snd ps) then Some (snd ps)
  else None.

(** The body of [match.players.forEach] in [handleMatchFound]. The lookup
    named [connection] is made in [activeMatches], with the player's socket
    id as key. *)
Definition updatePlayer (m : Match) (ps : QueueEntry * QueueEntry) (p : QueueEntry) (w : World) : World :=
  let w1 :=
    set_activeMatches (alter (with_currentMatch (Some (id m))) (socketId (player p))) w in
  let w2 := join (socketId (player p)) (roomId m) w1 in
  let opponent :=
    findPlayer (fun q => negb (userId (player q) =? userId (player p))) ps in
  emit (ToSocket (socketId (player p)))
       (MatchFound (id m) (roomId m)
          (option_map (fun q => username (player q)) opponent)
          (option_map (fun q => rating (player q)) opponent)) w2.

(** [handleMatchFound(match, io, activeMatches)] *)
Definition handleMatchFound (env : Env) (m : Match) (w : World) : World :=
  let w1 := set_activeMatches <[id m := m]> w in
  let w2 := GameEngine.createMatch env m w1 in
  let w3 :=
    match playersHeap w2 !! players m with
    | Some ps => updatePlayer m ps (snd ps) (updatePlayer m ps (fst ps) w2)
    | None => w2
    end in
  snd (schedule {| callback := Countdown (id m) (roomId m); delay := 2000;
                   repeating := false |} w3).

(** The callback of the countdown timeout. *)
Definition countdown (matchId room : string) (w : World) : World :=
  match activeMatches w !! matchId with
  | Some activeMatch =>
      if bool_decide (status activeMatch = starting)
      then emit (ToRoom room) (MatchCountdown 3) w
      else w
  | None => w
  end.

(** The result of the user query of [matchmaking:join]: the promise is
    rejected, or it resolves to a row or to nothing. *)
Record UserRow : Type := {
  row_id : Z;
  row_username : string;
  row_display_name : string;
  row_rating : Z
}.

Inductive QueryResult : Type :=
| QueryFailed
| QueryRow (row : option UserRow).

(** [socket.on('matchmaking:join', ...)] *)
Definition on_matchmaking_join (env : Env) (socket : Socket) (res : QueryResult) (w : World) : World :=
  match res with
  | QueryFailed =>
      emit (ToSocket (sock_id socket)) (ErrorMsg "Failed to join matchmaking") w
  | QueryRow None =>
      emit (ToSocket (sock_id socket)) (ErrorMsg "User not found") w
  | QueryRow (Some user) =>
      let p := {| userId := row_id user; socketId := sock_id socket;
                  username := row_username user;
                  displayName := row_display_name user;
                  rating := row_rating user |} in
      match MatchmakingService.addToQueue env p w with
      | (Some m, w1) => handleMatchFound env m w1
      | (None, w1) =>
          let n := Z.of_nat (length (queue w1)) in
          emit (ToSocket (sock_id socket)) (MatchmakingQueued n (Z.max 30 (n * 15))) w1
      end
  end.

(** [socket.on('matchmaking:leave', ...)] *)
Definition on_matchmaking_leave (socket : Socket) (w : World) : World :=
  emit (ToSocket (sock_id socket)) MatchmakingLeft
       (MatchmakingService.removeFromQueue (sock_userId socket) w).

(** [connection?.currentMatch] when it is truthy. *)
Definition currentMatchOf (socket : Socket) (w : World) : option string :=
  match activeConnections w !! sock_id socket with
  | Some c =>
      match conn_currentMatch c with
      | Some mid => if String.eqb mid "" then None else Some mid
      | None => None
      end
  | None => None
  end.

(** [socket.on('game:input', ...)] *)
Definition on_game_input (socket : Socket) (data : GameEngine.Input) (w : World) : World :=
  match currentMatchOf socket w with
  | None => emit (ToSocket (sock_id socket)) (ErrorMsg "Not in a match") w
  | Some mid =>
      let '(success, w1) := GameEngine.updatePlayerInput mid (sock_userId socket) data w in
      if success then w1
      else emit (ToSocket (sock_id socket)) (ErrorMsg "Invalid game input") w1
  end.

Definition with_ready (p : QueueEntry) : QueueEntry :=
  {| player := player p; joinedAt := joinedAt p; ratingRange := ratingRange p; ready := true |}.

(** [socket.on('match:ready', ...)]: the status written is the one of the
    object held by [activeMatches]. *)
Definition on_match_ready (socket : Socket) (w : World) : World :=
  match currentMatchOf socket w with
  | None => w
  | Some mid =>
      match activeMatches w !! mid with
      | None => w
      | Some m =>
          match playersHeap w !! players m with
          | None => w
          | Some ps =>
              let ps' :=
                if String.eqb (socketId (player (fst ps))) (sock_id socket)
                then Some (with_ready (fst ps), snd ps)
                else if String.eqb (socketId (player (snd ps))) (sock_id socket)
                then Some (fst ps, with_ready (snd ps))
                else None in
              match ps' with
              | None => w
              | Some ps1 =>
                  let w1 := set_playersHeap <[players m := ps1]> w in
                  if ready (fst ps1) && ready (snd ps1) then
                    emit (ToRoom (roomId m)) MatchStart
                         (set_activeMatches <[mid := with_status playing m]> w1)
                  else w1
              end
          end
      end
  end.

(** [handlePlayerDisconnect(match, disconnectedSocket, activeMatches, io)];
    [key] is where [activeMatches] holds the match object passed in. *)
Definition handlePlayerDisconnect (key : string) (disconnectedSocket : Socket) (w : World) : World :=
  match activeMatches w !! key with
  | None => w
  | Some m =>
      let w1 := emit (ToRoomExcept (roomId m) (sock_id disconnectedSocket))
                     (PlayerDisconnected (sock_username disconnectedSocket)) w in
      let w2 := set_activeMatches <[key := with_status paused m]> w1 in
      snd (schedule {| callback := GraceTimeout (id m) (roomId m) (players m)
                                     (sock_id disconnectedSocket);
                       delay := 30000; repeating := false |} w2)
  end.

(** The callback of the 30 second timeout of [handlePlayerDisconnect]. *)
Definition graceTimeout (matchId room : string) (playersRef : nat) (disconnectedId : string)
    (w : World) : World :=
  match activeMatches w !! matchId with
  | Some currentMatch =>
      if bool_decide (status currentMatch = paused) then
        let w1 := GameEngine.endMatch matchId w in
        let w2 := GameEngine.removeMatch matchId w1 in
        let w3 := set_activeMatches (delete matchId) w2 in
        let remaining :=
          match playersHeap w !! playersRef with
          | Some ps => findPlayer (fun p => negb (String.eqb (socketId (player p)) disconnectedId)) ps
          | None => None
          end in
        emit (ToRoom room)
             (MatchEnded "player_disconnect" (option_map (fun p => username (player p)) remaining)) w3
      else w
  | None => w
  end.

(** A timer fires: a timeout leaves the scheduler, an interval stays. *)
Definition fire (env : Env) (h : nat) (w : World) : World :=
  match timers w !! h with
  | None => w
  | Some t =>
      let w1 := if repeating t then w else set_timers (delete h) w in
      match callback t with
      | TickInterval matchId => GameEngine.updateGameState env matchId w1
      | ExpandSearch uid => MatchmakingService.expandSearch env uid w1
      | Countdown matchId room => countdown matchId room w1
      | GraceTimeout matchId room playersRef disconnectedId =>
          graceTimeout matchId room playersRef disconnectedId w1
      end
  end.

End SocketHandlers.

(** ** Connection bookkeeping of server.js *)

Module Server.

Definition with_userId (u : option Z) (c : Connection) : Connection :=
  {| conn_userId := u; conn_currentMatch := conn_currentMatch c;
     conn_joinedAt := conn_joinedAt c |}.

(** [io.on('connection', ...)]: stores the connection record, then the
    prologue of [setupSocketEvents] binds the socket's user id to it. *)
Definition on_connection (env : Env) (socket : Socket) (w : World) : World :=
  let w1 :=
    set_activeConnections
      <[sock_id socket := {| conn_userId := None; conn_currentMatch := None;
                             conn_joinedAt := now env |}]> w in
  set_activeConnections (alter (with_userId (Some (sock_userId socket))) (sock_id socket)) w1.

End Server.

(** ** Predicates of the statements *)

(** The user is one of the two players of a match that [activeMatches] holds
    and that is not completed. *)
Definition inActiveMatch (uid : Z) (w : World) : Prop :=
  exists key m ps,
    activeMatches w !! key = Some m /\
    status m <> completed /\
    playersHeap w !! players m = Some ps /\
    (userId (player (fst ps)) = uid \/ userId (player (snd ps)) = uid).

Definition isError (e : Target * Message) : Prop :=
  exists text, snd e = ErrorMsg text.

(** The timeout that [handlePlayerDisconnect] schedules for a match and a
    disconnected socket. *)
Definition graceTimer (m : Match) (socket : Socket) : Timer :=
  {| callback := GraceTimeout (id m) (roomId m) (players m) (sock_id socket);
     delay := 30000; repeating := false |}.

(** ** Concrete worlds, used to instantiate the theorems below *)

Module Examples.
Import SocketHandlers.

Definition emptyWorld : World :=
  {| activeConnections := ∅; activeMatches := ∅; queue := []; searchTimeouts := ∅;
     matches := ∅; playersHeap := ∅; stateHeap := ∅; timers := ∅; fresh := 0%nat;
     rooms := ∅; outbox := [] |}.

Definition alice : Socket := {| sock_id := "socket-a"; sock_userId := 1; sock_username := "alice" |}.
Definition bob : Socket := {| sock_id := "socket-b"; sock_userId := 2; sock_username := "bob" |}.

Definition aliceRow : UserRow :=
  {| row_id := 1; row_username := "alice"; row_display_name := "Alice"; row_rating := 1200 |}.
Definition bobRow : UserRow :=
  {| row_id := 2; row_username := "bob"; row_display_name := "Bob"; row_rating := 1300 |}.

Definition env0 : Env := {| now := 1000; random1 := 0.75; random2 := 0.5; uuid := "m1" |}.

(** Both sockets connected. *)
Definition connected : World :=
  Server.on_connection env0 bob (Server.on_connection env0 alice emptyWorld).

(** alice has joined the queue. *)
Definition aliceQueued : World :=
  on_matchmaking_join env0 alice (QueryRow (Some aliceRow)) connected.

(** bob has joined too: match "m1" is found, bob is [players[0]]. *)
Definition matched : World :=
  on_matchmaking_join env0 bob (QueryRow (Some bobRow)) aliceQueued.

(** The engine's record of a match with status ['playing'], the given ball
    and the given scores. *)
Definition withEngineState (b : Ball) (leftScore rightScore : Z) (w : World) : World :=
  match matches w !! "m1" with
  | None => w
  | Some m =>
      set_stateHeap
        (alter (fun gs => {| ball := b;
                             paddles_left := {| paddle_y := Num 250; score := leftScore |};
                             paddles_right := {| paddle_y := Num 250; score := rightScore |};
                             lastUpdate := lastUpdate gs |}) (gameState (copy m)))
        (set_matches
           <["m1" := {| copy := with_status playing (copy m); lastTick := lastTick m;
                        tickInterval := tickInterval m; winner := winner m |}]> w)
  end.

Definition centredBall : Ball := {| ball_x := 400; ball_y := 300; ball_vx := 5; ball_vy := 3 |}.

Definition playingWorld : World := withEngineState centredBall 0 0 matched.

(** A tick one sixtieth of a second after the last one. *)
Definition envTick : Env :=
  {| now := 1000 + 1000 / 60; random1 := 0.75; random2 := 0.5; uuid := "m2" |}.

(** alice's socket is gone: the match is paused. *)
Definition pausedWorld : World := handlePlayerDisconnect "m1" alice matched.

(** alice comes back on a new socket. *)
Definition alice2 : Socket := {| sock_id := "socket-a2"; sock_userId := 1; sock_username := "alice" |}.

(** What the worlds above hold for match "m1". *)
Definition bobEntry : QueueEntry :=
  {| player := {| userId := 2; socketId := "socket-b"; username := "bob";
                  displayName := "Bob"; rating := 1300 |};
     joinedAt := 1000;
     ratingRange := {| range_min := 1150; range_max := 1450 |};
     ready := false |}.

Definition aliceEntry : QueueEntry :=
  {| player := {| userId := 1; socketId := "socket-a"; username := "alice";
                  displayName := "Alice"; rating := 1200 |};
     joinedAt := 1000;
     ratingRange := {| range_min := 1050; range_max := 1350 |};
     ready := false |}.

Definition m1 (st : Status) : Match :=
  {| id := "m1"; roomId := "game-m1"; players := 2; status := st;
     createdAt := 1000; gameState := 3; currentMatch := None |}.

Definition engineM1 (st : Status) : EngineMatch :=
  {| copy := m1 st; lastTick := 1000; tickInterval := Some 4%nat; winner := None |}.

Definition stateOf (b : Ball) (leftScore rightScore : Z) : GameState :=
  {| ball := b;
     paddles_left := {| paddle_y := Num 250; score := leftScore |};
     paddles_right := {| paddle_y := Num 250; score := rightScore |};
     lastUpdate := 1000 |}.

Definition tickTimer : Timer :=
  {| callback := TickInterval "m1"; delay := 1000 / 60; repeating := true |}.

End Examples.

(** ** Further code of socketHandlers.js and server.js *)

(** [MatchmakingService.getQueueStats()] *)

Module QueueStatistics.

Record ByRating : Type := {
  bronze : nat;
  silver : nat;
  gold : nat;
  platinum : nat;
  diamond : nat
}.

Record QueueStats : Type := {
  total : nat;
  byRating : ByRating
}.

(** [this.queue.filter(pred).length] *)
Definition countWhere (pred : QueueEntry -> bool) (q : list QueueEntry) : nat :=
  length (List.filter pred q).

Definition getQueueStats (w : World) : QueueStats :=
  let r (p : QueueEntry) := rating (player p) in
  {| total := length (queue w);
     byRating :=
       {| bronze := countWhere (fun p => r p <? 1000) (queue w);
          silver := countWhere (fun p => (1000 <=? r p) && (r p <? 1400)) (queue w);
          gold := countWhere (fun p => (1400 <=? r p) && (r p <? 1800)) (queue w);
          platinum := countWhere (fun p => (1800 <=? r p) && (r p <? 2200)) (queue w);
          diamond := countWhere (fun p => 2200 <=? r p) (queue w) |} |}.

End QueueStatistics.

(** The test of [findMatch] on a pair of entries:
    [playerInRange || opponentInRange]. *)
Definition compatible (p opponent : QueueEntry) : bool :=
  MatchmakingService.inRange (rating (player opponent)) (ratingRange p) ||
  MatchmakingService.inRange (rating (player p)) (ratingRange opponent).

(** The user ids of the entries of a queue, in queue order. *)
Definition queueIds (q : list QueueEntry) : list Z :=
  List.map (fun e => userId (player e)) q.

(** The entry [addToQueue] builds for a player. *)
Definition newEntry (env : Env) (p : PlayerData) : QueueEntry :=
  {| player := p; joinedAt := now env;
     ratingRange := MatchmakingService.calculateRatingRange (rating p) 0; ready := false |}.


(** [socket.on('disconnect', async ...)] of socketHandlers.js. The handler
    awaits the database update of the online flag, so it runs in two parts:
    what it does before the [await], and what it does when it resumes. (When
    [socket.userId] is falsy there is no [await] and the two parts run in one
    go.) *)

Module DisconnectHandler.
Import SocketHandlers.

Definition on_disconnect_begin (socket : Socket) (w : World) : World :=
  MatchmakingService.removeFromQueue (sock_userId socket) w.

Definition on_disconnect_resume (socket : Socket) (w : World) : World :=
  match currentMatchOf socket w with
  | None => w
  | Some mid =>
      match activeMatches w !! mid with
      | Some _ => handlePlayerDisconnect mid socket w
      | None => w
      end
  end.

End DisconnectHandler.

(** ** class EnhancedPongServer (server.js): disconnection *)

Module EnhancedPongServer.

(** Events emitted by server.js: [opponent-disconnected] to one socket,
    [server-stats] to everybody. *)
Inductive ServerEvent : Type :=
| OpponentDisconnected (sid matchId message : string)
| ServerStats (connections activeMatchCount queuedPlayers : nat).

(** The server object: the maps it shares with the socket handlers are those
    of the world; [matchmakingQueue] is its own array; [pendingEnds] holds the
    30 second timeouts of [handleMatchDisconnection], with the match id their
    closure captures. *)
Record ServerState : Type := {
  world : World;
  matchmakingQueue : list PlayerData;
  pendingEnds : gmap nat string;
  nextHandle : nat;
  emitted : list ServerEvent
}.

Definition with_world (f : World -> World) (st : ServerState) : ServerState :=
  {| world := f (world st); matchmakingQueue := matchmakingQueue st;
     pendingEnds := pendingEnds st; nextHandle := nextHandle st; emitted := emitted st |}.

Definition serverEmit (e : ServerEvent) (st : ServerState) : ServerState :=
  {| world := world st; matchmakingQueue := matchmakingQueue st;
     pendingEnds := pendingEnds st; nextHandle := nextHandle st;
     emitted := emitted st ++ [e] |}.

(** [broadcastServerStats()] *)
Definition broadcastServerStats (st : ServerState) : ServerState :=
  serverEmit (ServerStats (size (activeConnections (world st)))
                          (size (activeMatches (world st)))
                          (length (matchmakingQueue st))) st.

Definition clearCurrentMatch (c : Connection) : Connection :=
  {| conn_userId := conn_userId c; conn_currentMatch := None;
     conn_joinedAt := conn_joinedAt c |}.

(** [endMatch(matchId, reason)] of the server (not the engine's). *)
Definition endMatch (matchId : string) (st : ServerState) : ServerState :=
  match activeMatches (world st) !! matchId with
  | None => st
  | Some m =>
      let st1 :=
        match playersHeap (world st) !! players m with
        | Some ps =>
            with_world
              (set_activeConnections
                 (fun c => alter clearCurrentMatch (socketId (player (snd ps)))
                             (alter clearCurrentMatch (socketId (player (fst ps))) c))) st
        | None => st
        end in
      broadcastServerStats (with_world (set_activeMatches (delete matchId)) st1)
  end.

(** The notification of one player in [handleMatchDisconnection]. *)
Definition notifyOpponent (m : Match) (disconnectedSocketId : string) (p : QueueEntry)
    (st : ServerState) : ServerState :=
  if String.eqb (socketId (player p)) disconnectedSocketId then st
  else
    match activeConnections (world st) !! socketId (player p) with
    | Some _ =>
        serverEmit (OpponentDisconnected (socketId (player p)) (id m)
                      "Your opponent has disconnected") st
    | None => st
    end.

(** [handleMatchDisconnection(match, disconnectedSocketId)] *)
Definition handleMatchDisconnection (m : Match) (disconnectedSocketId : string)
    (st : ServerState) : ServerState :=
  let st1 :=
    match playersHeap (world st) !! players m with
    | Some ps =>
        notifyOpponent m disconnectedSocketId (snd ps)
          (notifyOpponent m disconnectedSocketId (fst ps) st)
    | None => st
    end in
  {| world := world st1; matchmakingQueue := matchmakingQueue st1;
     pendingEnds := <[nextHandle st1 := id m]> (pendingEnds st1);
     nextHandle := S (nextHandle st1); emitted := emitted st1 |}.

(** The callback of that timeout. *)
Definition firePendingEnd (h : nat) (st : ServerState) : ServerState :=
  match pendingEnds st !! h with
  | None => st
  | Some matchId =>
      let st1 :=
        {| world := world st; matchmakingQueue := matchmakingQueue st;
           pendingEnds := delete h (pendingEnds st);
           nextHandle := nextHandle st; emitted := emitted st |} in
      match activeMatches (world st1) !! matchId with
      | Some _ => endMatch matchId st1
      | None => st1
      end
  end.

(** [handleDisconnection(socketId)] *)
Definition handleDisconnection (sid : string) (st : ServerState) : ServerState :=
  match activeConnections (world st) !! sid with
  | None => st
  | Some connection =>
      let st1 :=
        {| world := world st;
           matchmakingQueue :=
             List.filter (fun p => negb (String.eqb (socketId p) sid)) (matchmakingQueue st);
           pendingEnds := pendingEnds st; nextHandle := nextHandle st;
           emitted := emitted st |} in
      let st2 :=
        match conn_currentMatch connection with
        | Some mid =>
            if String.eqb mid "" then st1
            else
              match activeMatches (world st1) !! mid with
              | Some m => handleMatchDisconnection m sid st1
              | None => st1
              end
        | None => st1
        end in
      broadcastServerStats (with_world (set_activeConnections (delete sid)) st2)
  end.

End EnhancedPongServer.

(** ** Further concrete worlds *)

Module MoreExamples.
Import SocketHandlers.

(** The world [Examples.matched] with the connection records as
    [handleMatchFound] is meant to leave them: both players in match "m1". *)
Definition withCurrentMatch (w : World) : World :=
  set_activeConnections
    (fun c => alter (fun r => {| conn_userId := conn_userId r;
                                 conn_currentMatch := Some "m1";
                                 conn_joinedAt := conn_joinedAt r |}) "socket-a"
                (alter (fun r => {| conn_userId := conn_userId r;
                                    conn_currentMatch := Some "m1";
                                    conn_joinedAt := conn_joinedAt r |}) "socket-b" c)) w.

Definition bound : World := withCurrentMatch Examples.matched.

(** bob, then alice, send [match:ready]. *)
Definition bobReady : World := on_match_ready Examples.bob bound.
Definition bothReady : World := on_match_ready Examples.alice bobReady.

(** carol (rating 2000) waits alone. *)
Definition carol : Socket := {| sock_id := "socket-c"; sock_userId := 3; sock_username := "carol" |}.
Definition carolRow : UserRow :=
  {| row_id := 3; row_username := "carol"; row_display_name := "Carol"; row_rating := 2000 |}.
Definition carolData : PlayerData :=
  {| userId := 3; socketId := "socket-c"; username := "carol";
     displayName := "Carol"; rating := 2000 |}.
Definition aliceData : PlayerData := player Examples.aliceEntry.
Definition bobData : PlayerData := player Examples.bobEntry.

(** alice (1200) and carol (2000) are both queued: 800 apart, no match. *)
Definition twoQueued : World :=
  on_matchmaking_join Examples.env0 carol (QueryRow (Some carolRow)) Examples.aliceQueued.

(** alice's socket disconnects after the start; bob then sends [match:ready]
    once more. *)
Definition pausedAfterStart : World := handlePlayerDisconnect "m1" Examples.alice bothReady.
Definition resumed : World := on_match_ready Examples.bob pausedAfterStart.

(** The world bob and alice are matched in, before [handleMatchFound] runs. *)
Definition paired : World :=
  snd (MatchmakingService.addToQueue Examples.env0 bobData Examples.aliceQueued).


Definition carolEntry : QueueEntry :=
  {| player := carolData; joinedAt := 1000;
     ratingRange := {| range_min := 1850; range_max := 2150 |}; ready := false |}.

(** 200 seconds after [Examples.env0]. *)
Definition envLate : Env := {| now := 201000; random1 := 0.75; random2 := 0.5; uuid := "m9" |}.

Definition serverOf (w : World) : EnhancedPongServer.ServerState :=
  {| EnhancedPongServer.world := w;
     EnhancedPongServer.matchmakingQueue := [];
     EnhancedPongServer.pendingEnds := ∅;
     EnhancedPongServer.nextHandle := 0%nat;
     EnhancedPongServer.emitted := [] |}.

(** A tick 17 ms after the last one. *)
Definition envMs17 : Env := {| now := 1017; random1 := 0.75; random2 := 0.5; uuid := "m2" |}.

End MoreExamples.

(** ** The [disconnect] event of a socket

    A socket runs the listeners of an event in the order of their
    registration: the one of [setupSocketEvents] first, then the one that
    server.js adds after that call. The first is [async]: when
    [socket.userId] is truthy it stops at the [await] of the database
    update, and what follows the [await] runs once the second listener has
    returned (the update is taken to succeed); otherwise it runs to its end
    at once. *)

Module DisconnectEvent.
Import SocketHandlers DisconnectHandler EnhancedPongServer.

Definition on_disconnect (socket : Socket) (st : ServerState) : ServerState :=
  let st1 := with_world (on_disconnect_begin socket) st in
  if sock_userId socket =? 0 then
    handleDisconnection (sock_id socket) (with_world (on_disconnect_resume socket) st1)
  else
    with_world (on_disconnect_resume socket) (handleDisconnection (sock_id socket) st1).

End DisconnectEvent.

(** ** Concrete matches of the binary64 engine *)

Module Examples64.
Import PrimFloat GameEngine64.

Definition paddle (s : Z) : Paddle := {| paddle_y := 250; score := s |}.

(** A playing match whose last tick was at 1000 ms. *)
Definition playingMatch (b : Ball) (leftScore rightScore : Z) : Match :=
  {| status := playing; lastTick := number 1000; tickInterval := Some 4%nat; winner := None;
     gameState := {| ball := b; paddles_left := paddle leftScore;
                     paddles_right := paddle rightScore; lastUpdate := number 1000 |} |}.

Definition centredBall : Ball := {| x := 400; y := 300; vx := 5; vy := 3 |}.

(** A ball at x = 21 + 2^-48 moving left. *)
Definition grazing : Ball :=
  {| x := (21 + 1 / 281474976710656)%float; y := 300; vx := (-5)%float; vy := 3 |}.

Definition at_ms (ms : Z) : Env := {| now := ms; random1 := 0.75; random2 := 0.5 |}.

End Examples64.

(** * Properties *)

(** ** GameEngine *)

Module GameEngineSpec.
Import GameEngine.

Lemma endMatch_lookup (w : World) (matchId : string) (m : EngineMatch) :
  matches w !! matchId = Some m ->
  matches (endMatch matchId w) !! matchId =
    Some {| copy := with_status completed (copy m);
            lastTick := lastTick m;
            tickInterval := tickInterval m;
            winner := match stateHeap w !! gameState (copy m) with
                      | Some gs =>
                          Some (if score (paddles_left gs) >? score (paddles_right gs)
                                then players0 else players1)
                      | None => winner m
                      end |}.
Proof.
  intros Hm. unfold endMatch. rewrite Hm.
  destruct (tickInterval m); cbn; apply lookup_insert_eq.
Qed.

Lemma endMatch_stateHeap (w : World) (matchId : string) :
  stateHeap (endMatch matchId w) = stateHeap w.
Proof.
  unfold endMatch. destruct (matches w !! matchId) as [m|]; [|reflexivity].
  destruct (tickInterval m); reflexivity.
Qed.

Lemma endMatch_timers (w : World) (matchId : string) (m : EngineMatch) :
  matches w !! matchId = Some m ->
  timers (endMatch matchId w) =
    match tickInterval m with
    | Some h => delete h (timers w)
    | None => timers w
    end.
Proof.
  intros Hm. unfold endMatch. rewrite Hm. destruct (tickInterval m); reflexivity.
Qed.

(** C10. Every call of [endMatch] on a match the engine holds records a
    winner, whatever led to the call: [players[0]] exactly when the left
    score is strictly greater than the right score, [players[1]] otherwise
    (so also when the scores are equal); the recorded winner is never null. *)
Theorem endMatch_winner (w : World) (matchId : string) (m : EngineMatch) (gs : GameState) :
  matches w !! matchId = Some m ->
  stateHeap w !! gameState (copy m) = Some gs ->
  exists m',
    matches (endMatch matchId w) !! matchId = Some m' /\
    status (copy m') = completed /\
    (winner m' = Some players0 <-> score (paddles_left gs) > score (paddles_right gs)) /\
    (winner m' = Some players1 <-> score (paddles_left gs) <= score (paddles_right gs)) /\
    (score (paddles_left gs) = score (paddles_right gs) -> winner m' = Some players1) /\
    winner m' <> None.
Proof.
  intros Hm Hgs. eexists. split; [apply (endMatch_lookup _ _ _ Hm)|].
  rewrite Hgs. cbn.
  destruct (Z.gtb_spec (score (paddles_left gs)) (score (paddles_right gs))) as [Hgt|Hle].
  - repeat split; try congruence; try lia.
  - repeat split; try congruence; try lia.
Qed.

Lemma endMatch_winner_witness :
  exists m',
    matches (endMatch "m1" Examples.matched) !! "m1" = Some m' /\
    status (copy m') = completed /\
    winner m' = Some players1.
Proof.
  destruct (endMatch_winner Examples.matched "m1"
              (Examples.engineM1 starting)
              (Examples.stateOf Examples.centredBall 0 0))
    as (m' & Hm' & Hst & _ & _ & Heq & _).
  - vm_compute. reflexivity.
  - vm_compute. reflexivity.
  - exists m'. split; [exact Hm'|]. split; [exact Hst|]. apply Heq. reflexivity.
Defined.

Lemma stepState_scores (env : Env) (dt : Q) (gs : GameState) :
  let gs1 := stepState env dt gs in
  (score (paddles_left gs1) = score (paddles_left gs) /\
   score (paddles_right gs1) = score (paddles_right gs)) \/
  (score (paddles_left gs1) = score (paddles_left gs) + 1 /\
   score (paddles_right gs1) = score (paddles_right gs)) \/
  (score (paddles_left gs1) = score (paddles_left gs) /\
   score (paddles_right gs1) = score (paddles_right gs) + 1).
Proof.
  cbv zeta. unfold stepState.
  destruct (Qle_bool _ 0); [right; right; split; reflexivity|].
  destruct (Qle_bool 800 _); [right; left; split; reflexivity|].
  left; split; reflexivity.
Qed.

(** What [updateGameState] does on a match the engine holds as playing. *)
Lemma updateGameState_playing (env : Env) (w : World) (matchId : string)
    (m : EngineMatch) (gs : GameState) :
  matches w !! matchId = Some m ->
  status (copy m) = playing ->
  stateHeap w !! gameState (copy m) = Some gs ->
  let gs1 := stepState env ((now env - lastTick m) / 1000)%Q gs in
  let w2 := set_stateHeap <[gameState (copy m) := gs1]>
              (set_matches <[matchId := with_lastTick (now env) m]> w) in
  updateGameState env matchId w =
    set_stateHeap (alter (with_lastUpdate (now env)) (gameState (copy m)))
      (if (11 <=? score (paddles_left gs1)) || (11 <=? score (paddles_right gs1))
       then endMatch matchId w2 else w2).
Proof.
  intros Hm Hst Hgs. cbv zeta. unfold updateGameState.
  rewrite Hm, Hst, Hgs. rewrite bool_decide_eq_true_2 by reflexivity. reflexivity.
Qed.

Lemma updateGameState_stateHeap (env : Env) (w : World) (matchId : string)
    (m : EngineMatch) (gs : GameState) :
  matches w !! matchId = Some m ->
  status (copy m) = playing ->
  stateHeap w !! gameState (copy m) = Some gs ->
  stateHeap (updateGameState env matchId w) !! gameState (copy m) =
    Some (with_lastUpdate (now env) (stepState env ((now env - lastTick m) / 1000)%Q gs)).
Proof.
  intros Hm Hst Hgs. rewrite (updateGameState_playing env w matchId m gs Hm Hst Hgs).
  cbn [stateHeap set_stateHeap].
  destruct (_ || _).
  - rewrite endMatch_stateHeap. cbn. rewrite lookup_alter_eq, lookup_insert_eq. reflexivity.
  - cbn. rewrite lookup_alter_eq, lookup_insert_eq. reflexivity.
Qed.

(** C7. On a match the engine holds as playing with both scores below 11:
    if the tick brings the left score to 11 the match is completed with
    [players[0]] (the left paddle's participant) as winner, if it brings the
    right score to 11 the match is completed with [players[1]] as winner,
    and if both scores stay below 11 (as at 10-10) the match stays playing
    and no winner is recorded. *)
Theorem tick_win_condition (env : Env) (w : World) (matchId : string)
    (m : EngineMatch) (gs : GameState) :
  matches w !! matchId = Some m ->
  status (copy m) = playing ->
  stateHeap w !! gameState (copy m) = Some gs ->
  score (paddles_left gs) < 11 ->
  score (paddles_right gs) < 11 ->
  exists m' gs',
    matches (updateGameState env matchId w) !! matchId = Some m' /\
    stateHeap (updateGameState env matchId w) !! gameState (copy m) = Some gs' /\
    (score (paddles_left gs') = 11 ->
       status (copy m') = completed /\ winner m' = Some players0) /\
    (score (paddles_right gs') = 11 ->
       status (copy m') = completed /\ winner m' = Some players1) /\
    (score (paddles_left gs') < 11 -> score (paddles_right gs') < 11 ->
       status (copy m') = playing /\ winner m' = winner m).
Proof.
  intros Hm Hst Hgs Hl Hr.
  pose proof (stepState_scores env ((now env - lastTick m) / 1000)%Q gs) as Hsc.
  cbv zeta in Hsc.
  pose proof (updateGameState_stateHeap env w matchId m gs Hm Hst Hgs) as Hheap.
  rewrite (updateGameState_playing env w matchId m gs Hm Hst Hgs) in *.
  set (gs1 := stepState env ((now env - lastTick m) / 1000)%Q gs) in *.
  set (w2 := set_stateHeap _ (set_matches _ w)) in *.
  assert (Hm2 : matches w2 !! matchId = Some (with_lastTick (now env) m))
    by (subst w2; cbn; apply lookup_insert_eq).
  assert (Hgs2 : stateHeap w2 !! gameState (copy (with_lastTick (now env) m)) = Some gs1)
    by (subst w2; cbn; apply lookup_insert_eq).
  destruct ((11 <=? score (paddles_left gs1)) || (11 <=? score (paddles_right gs1))) eqn:Hwin.
  - eexists. exists (with_lastUpdate (now env) gs1).
    split; [cbn [matches set_stateHeap]; apply (endMatch_lookup _ _ _ Hm2)|].
    split; [exact Hheap|].
    rewrite Hgs2. cbn.
    apply orb_true_iff in Hwin. rewrite !Z.leb_le in Hwin.
    repeat split; try lia.
    + destruct (Z.gtb_spec (score (paddles_left gs1)) (score (paddles_right gs1)));
        [reflexivity | lia].
    + destruct (Z.gtb_spec (score (paddles_left gs1)) (score (paddles_right gs1)));
        [lia | reflexivity].
  - exists (with_lastTick (now env) m), (with_lastUpdate (now env) gs1).
    split; [exact Hm2|]. split; [exact Hheap|].
    apply orb_false_iff in Hwin. rewrite !Z.leb_gt in Hwin. cbn.
    repeat split; try lia; assumption.
Qed.

(** At 10-10 with the ball about to leave on the right: the left paddle
    scores its eleventh point. *)
Lemma tick_win_condition_witness :
  let w := Examples.withEngineState
             {| ball_x := 799; ball_y := 300; ball_vx := 5; ball_vy := 0 |} 10 10
             Examples.matched in
  exists m' gs',
    matches (updateGameState Examples.envTick "m1" w) !! "m1" = Some m' /\
    stateHeap (updateGameState Examples.envTick "m1" w) !! 3%nat = Some gs' /\
    score (paddles_left gs') = 11 /\
    status (copy m') = completed /\ winner m' = Some players0.
Proof.
  intros w.
  destruct (tick_win_condition Examples.envTick w "m1"
              (Examples.engineM1 playing)
              (Examples.stateOf {| ball_x := 799; ball_y := 300; ball_vx := 5; ball_vy := 0 |} 10 10))
    as (m' & gs' & Hm' & Hgs' & Hleft & _ & _).
  - vm_compute. reflexivity.
  - reflexivity.
  - vm_compute. reflexivity.
  - cbn. lia.
  - cbn. lia.
  - exists m', gs'. split; [exact Hm'|]. split; [exact Hgs'|].
    assert (Hs : score (paddles_left gs') = 11).
    { cbn [copy gameState] in Hgs'. vm_compute in Hgs'. injection Hgs' as <-. reflexivity. }
    split; [exact Hs|]. exact (Hleft Hs).
Defined.

(** At 10-10 with the ball in mid-court the tick ends nothing. *)
Example tick_at_10_10_continues :
  let w := Examples.withEngineState Examples.centredBall 10 10 Examples.matched in
  exists m',
    matches (updateGameState Examples.envTick "m1" w) !! "m1" = Some m' /\
    status (copy m') = playing /\ winner m' = None.
Proof. eexists. split; [vm_compute; reflexivity|split; reflexivity]. Qed.

(** Paddle collisions change the velocity only. *)
Lemma handlePaddleCollision_position (b : Ball) (l r : Paddle) :
  ball_x (handlePaddleCollision b l r) = ball_x b /\
  ball_y (handlePaddleCollision b l r) = ball_y b.
Proof.
  unfold handlePaddleCollision.
  destruct (Qle_bool (ball_x b) 20 && Qle_bool 10 (ball_x b));
    [destruct (withinPaddle (ball_y b) l)|];
    cbn [deflect ball_x ball_y];
    (destruct (Qle_bool 780 _ && Qle_bool _ 790);
     [destruct (withinPaddle _ r)|]; cbn [deflect ball_x ball_y]; split; reflexivity).
Qed.

(** [validateInput] accepts the finite numbers of [50,550], and NaN. *)
Lemma validateInput_true (input : Input) :
  validateInput input = true <->
  (exists q, paddleY input = JNumber (Num q) /\ (50 <= q)%Q /\ (q <= 550)%Q) \/
  paddleY input = JNumber NaN.
Proof.
  unfold validateInput, js_gt, js_lt, Qlt_bool.
  destruct (paddleY input) as [| | | |[q| | |]]; cbn; split;
    try (intros [(q' & Heq & _)|Heq]; discriminate);
    try discriminate; try (right; reflexivity); try reflexivity.
  - destruct (Qle_bool 50 q) eqn:E1, (Qle_bool q 550) eqn:E2; cbn; try discriminate.
    intros _. left. exists q. apply Qle_bool_iff in E1, E2. auto.
  - intros [(q' & Heq & H1 & H2)|Heq]; [|discriminate].
    injection Heq as <-.
    apply Qle_bool_iff in H1, H2. rewrite H1, H2. reflexivity.
Qed.

(** C2, at the input that separates the code from the claim: on a match
    the engine holds as playing, for a participant, the input NaN (a
    number that is not finite) is accepted, and that participant's paddle
    position becomes NaN. *)
Theorem updatePlayerInput_NaN (w : World) (matchId : string) (m : EngineMatch)
    (ps : QueueEntry * QueueEntry) (gs : GameState) (playerId : Z) (ix : PlayerIx) :
  matches w !! matchId = Some m ->
  status (copy m) = playing ->
  playersHeap w !! players (copy m) = Some ps ->
  stateHeap w !! gameState (copy m) = Some gs ->
  findIndex playerId ps = Some ix ->
  is_finite (JNumber NaN) = false /\
  exists w' gs',
    updatePlayerInput matchId playerId {| paddleY := JNumber NaN |} w = (true, w') /\
    stateHeap w' !! gameState (copy m) = Some gs' /\
    paddle_y (match ix with
              | players0 => paddles_left gs'
              | players1 => paddles_right gs'
              end) = NaN.
Proof.
  intros Hm Hst Hps Hgs Hix. split; [reflexivity|].
  unfold updatePlayerInput. rewrite Hm, Hst, Hps, Hgs, Hix.
  rewrite bool_decide_eq_true_2 by reflexivity. cbn.
  eexists. eexists. split; [reflexivity|].
  cbn. rewrite lookup_insert_eq. split; [reflexivity|].
  destruct ix; reflexivity.
Qed.

Lemma updatePlayerInput_NaN_witness :
  exists w' gs',
    updatePlayerInput "m1" 2 {| paddleY := JNumber NaN |} Examples.playingWorld = (true, w') /\
    stateHeap w' !! 3%nat = Some gs' /\
    paddle_y (paddles_left gs') = NaN.
Proof.
  destruct (updatePlayerInput_NaN Examples.playingWorld "m1"
              (Examples.engineM1 playing)
              (Examples.bobEntry,
               Examples.aliceEntry)
              (Examples.stateOf Examples.centredBall 0 0)
              2 players0)
    as (_ & w' & gs' & Hres & Hgs' & Hy).
  - vm_compute. reflexivity.
  - reflexivity.
  - vm_compute. reflexivity.
  - vm_compute. reflexivity.
  - reflexivity.
  - exists w', gs'. auto.
Defined.

(** Apart from NaN the behaviour is the claimed one: rejections leave the
    world as it is, and an accepted finite position is stored as sent. *)
Lemma updatePlayerInput_rejects (w : World) (matchId : string) (playerId : Z) (input : Input)
    (m : EngineMatch) (ps : QueueEntry * QueueEntry) :
  matches w !! matchId = Some m ->
  playersHeap w !! players (copy m) = Some ps ->
  status (copy m) <> playing \/ findIndex playerId ps = None \/ validateInput input = false ->
  updatePlayerInput matchId playerId input w = (false, w).
Proof.
  intros Hm Hps H. unfold updatePlayerInput. rewrite Hm, Hps.
  destruct (bool_decide (status (copy m) = playing)) eqn:Est; [|reflexivity].
  apply bool_decide_eq_true in Est. cbn.
  destruct (stateHeap w !! gameState (copy m)); [|reflexivity].
  destruct (findIndex playerId ps) eqn:Eix; [|reflexivity].
  destruct (validateInput input) eqn:Ev; [|reflexivity].
  destruct H as [H|[H|H]]; [contradiction|discriminate|discriminate].
Qed.

Lemma updatePlayerInput_accepts (w : World) (matchId : string) (playerId : Z) (q : Q)
    (m : EngineMatch) (ps : QueueEntry * QueueEntry) (gs : GameState) (ix : PlayerIx) :
  matches w !! matchId = Some m ->
  status (copy m) = playing ->
  playersHeap w !! players (copy m) = Some ps ->
  stateHeap w !! gameState (copy m) = Some gs ->
  findIndex playerId ps = Some ix ->
  (50 <= q)%Q -> (q <= 550)%Q ->
  updatePlayerInput matchId playerId {| paddleY := JNumber (Num q) |} w =
    (true,
     set_stateHeap
       <[gameState (copy m) :=
           match ix with
           | players0 =>
               {| ball := ball gs;
                  paddles_left := with_paddle_y (Num (Qmax 50 (Qmin 550 q))) (paddles_left gs);
                  paddles_right := paddles_right gs; lastUpdate := lastUpdate gs |}
           | players1 =>
               {| ball := ball gs; paddles_left := paddles_left gs;
                  paddles_right := with_paddle_y (Num (Qmax 50 (Qmin 550 q))) (paddles_right gs);
                  lastUpdate := lastUpdate gs |}
           end]> w).
Proof.
  intros Hm Hst Hps Hgs Hix H1 H2.
  assert (Hv : validateInput {| paddleY := JNumber (Num q) |} = true).
  { apply validateInput_true. left. exists q. auto. }
  unfold updatePlayerInput.
  rewrite Hm, Hst, Hps, Hgs, Hix, Hv. rewrite bool_decide_eq_true_2 by reflexivity.
  cbn. destruct ix; reflexivity.
Qed.

End GameEngineSpec.

(** ** GameEngine: the tick in binary64 *)

Module GameEngine64Spec.
Import PrimFloat GameEngine64.

(** Paddle collisions change the velocity only. *)
Lemma handlePaddleCollision64_position (b : Ball) (l r : Paddle) :
  x (handlePaddleCollision b l r) = x b /\ y (handlePaddleCollision b l r) = y b.
Proof.
  unfold handlePaddleCollision.
  destruct ((x b <=? 20)%float && (10 <=? x b)%float && hits b l);
    cbn [deflect x y];
    (match goal with |- context [if ?c then _ else _] => destruct c end);
    cbn [deflect x y]; split; reflexivity.
Qed.

(** C6, as the code has it. A tick on a match whose status is not playing
    returns the record as it was and clears nothing. A tick on a playing
    match takes the elapsed time from the previous tick,
    (now - lastTick) / 1000 with [now] the millisecond clock, and stores
    [now] as the new [lastTick]; the position it computes is
    x + vx * elapsed * 60 and y + vy * elapsed * 60 in binary64 arithmetic,
    and when that position passes none of the tests of the walls
    (y <= 10, y >= 590) and of the goal lines (x <= 0, x >= 800) it is the
    ball's new position, with the paddles and the scores as they were. *)
Theorem tick_advances_ball_binary64 (env : Env) (m : Match) :
  (status m <> playing -> updateGameState env m = (m, None)) /\
  (status m = playing ->
   let b := ball (gameState m) in
   let elapsedSeconds := ((number (now env) - lastTick m) / 1000)%float in
   let x' := (x b + vx b * elapsedSeconds * 60)%float in
   let y' := (y b + vy b * elapsedSeconds * 60)%float in
   (y' <=? 10)%float = false -> (590 <=? y')%float = false ->
   (x' <=? 0)%float = false -> (800 <=? x')%float = false ->
   let m' := fst (updateGameState env m) in
   x (ball (gameState m')) = x' /\ y (ball (gameState m')) = y' /\
   lastTick m' = number (now env) /\
   lastUpdate (gameState m') = number (now env) /\
   paddles_left (gameState m') = paddles_left (gameState m) /\
   paddles_right (gameState m') = paddles_right (gameState m)).
Proof.
  split.
  - intros Hst. unfold updateGameState.
    rewrite bool_decide_eq_false_2 by exact Hst. reflexivity.
  - intros Hst b elapsedSeconds x' y' Hy1 Hy2 Hx1 Hx2 m'. subst m'.
    unfold updateGameState. rewrite bool_decide_eq_true_2 by exact Hst.
    cbn [negb]. fold b. fold elapsedSeconds. fold x' y'. cbn [x y vx vy].
    rewrite Hy1, Hy2. cbn [orb].
    match goal with
    | |- context [handlePaddleCollision ?b0 ?l ?r] =>
        destruct (handlePaddleCollision64_position b0 l r) as [Hx Hy];
        set (b3 := handlePaddleCollision b0 l r) in *
    end.
    cbn [x y] in Hx, Hy. rewrite Hx, Hx1, Hx2.
    cbn [paddles_left paddles_right score].
    destruct ((11 <=? score (paddles_left (gameState m))) ||
              (11 <=? score (paddles_right (gameState m)))); cbn.
    all: repeat split; try assumption.
Qed.

(** The ball at (400,300) with velocity (5,3), ticked 17 ms after the last
    tick: it ends at x = 405.1 and y = 303.06 (the doubles nearest to these
    numbers, written in hexadecimal below), and the next elapsed time counts
    from 1017. *)
Lemma tick_advances_ball_binary64_witness :
  let m' := fst (updateGameState (Examples64.at_ms 1017)
                   (Examples64.playingMatch Examples64.centredBall 0 0)) in
  x (ball (gameState m')) = 0x1.951999999999ap+8%float /\
  y (ball (gameState m')) = 0x1.2f0f5c28f5c29p+8%float /\
  lastTick m' = number 1017.
Proof.
  destruct (tick_advances_ball_binary64 (Examples64.at_ms 1017)
              (Examples64.playingMatch Examples64.centredBall 0 0)) as [_ H].
  destruct (H eq_refl) as (Hx & Hy & Ht & _).
  - vm_compute. reflexivity.
  - vm_compute. reflexivity.
  - vm_compute. reflexivity.
  - vm_compute. reflexivity.
  - cbv zeta. rewrite Hx, Hy, Ht. repeat split; vm_compute; reflexivity.
Defined.

(** C6, as stated, fails. The ball is at x = 21 + 2^-48, y = 300 with
    velocity (-5,3), and the tick comes 70 ms after the last one. Velocity *
    elapsed * 60 added to the position gives x = 2^-48 and y = 312.6: inside
    the court, off the walls, off the goal lines and outside the paddle
    zones. The tick computes x = 0 in binary64, gives the right side a point
    and puts the ball back to x = 400. And at the two ticks a whole number
    of milliseconds around 1/60 s after the last one (16 and 17 ms) the ball
    of the claim's example is not at x = 405. *)
Lemma tick_exact_advance_counterexample :
  let m := Examples64.playingMatch Examples64.grazing 0 0 in
  let m' := fst (updateGameState (Examples64.at_ms 1070) m) in
  let x0 := (21 + (1 # 281474976710656))%Q in
  let x' := (x0 + (-5) * ((1070 - 1000) / 1000) * 60)%Q in
  let y' := (300 + 3 * ((1070 - 1000) / 1000) * 60)%Q in
  let after (ms : Z) :=
    fst (updateGameState (Examples64.at_ms ms)
           (Examples64.playingMatch Examples64.centredBall 0 0)) in
  status m = playing /\
  is_exactly (x (ball (gameState m))) x0 = true /\
  is_exactly (y (ball (gameState m))) 300 = true /\
  is_exactly (vx (ball (gameState m))) (-5) = true /\
  is_exactly (vy (ball (gameState m))) 3 = true /\
  is_exactly (lastTick m) 1000 = true /\
  (0 < x')%Q /\ (x' < 10)%Q /\ (10 < y')%Q /\ (y' < 590)%Q /\
  is_exactly (x (ball (gameState m'))) x' = false /\
  x (ball (gameState m')) = 400%float /\
  score (paddles_right (gameState m')) = score (paddles_right (gameState m)) + 1 /\
  is_exactly (x (ball (gameState (after 1016)))) 405 = false /\
  is_exactly (x (ball (gameState (after 1017)))) 405 = false.
Proof.
  cbv zeta. repeat split; vm_compute; reflexivity.
Qed.

End GameEngine64Spec.

(** ** MatchmakingService *)

Module MatchmakingSpec.
Import MatchmakingService.

Lemma removeFromQueue_queue (uid : Z) (w : World) :
  queue (removeFromQueue uid w) =
    List.filter (fun p => negb (userId (player p) =? uid)) (queue w).
Proof.
  unfold removeFromQueue. cbn.
  destruct (searchTimeouts w !! uid); reflexivity.
Qed.

Lemma setExpandingSearch_queue (uid : Z) (w : World) :
  queue (setExpandingSearch uid w) = queue w.
Proof. reflexivity. Qed.

Lemma calculateRatingRange_initial (r : Z) :
  calculateRatingRange r 0 =
    {| range_min := Z.max 800 (r - 150); range_max := Z.min 3000 (r + 150) |}.
Proof. reflexivity. Qed.

(** The initial band of a rating in [800,3000] contains every rating of
    [800,3000] that is at most 150 away. *)
Lemma inRange_initial (r1 r2 : Z) :
  800 <= r1 <= 3000 ->
  Z.abs (r1 - r2) <= 150 ->
  inRange r1 (calculateRatingRange r2 0) = true.
Proof.
  intros Hr Habs. rewrite calculateRatingRange_initial. unfold inRange. cbn.
  apply andb_true_iff. rewrite !Z.leb_le. lia.
Qed.

(** C8. With one player in the queue, the arrival of a second player with
    both ratings in [800,3000] and at most 150 apart returns a match at once:
    its players are the newcomer and the queued player, and the queue is
    empty afterwards. *)
Theorem addToQueue_matches_within_150 (env : Env) (w : World) (e1 : QueueEntry) (p2 : PlayerData) :
  queue w = [e1] ->
  userId (player e1) <> userId p2 ->
  800 <= rating (player e1) <= 3000 ->
  800 <= rating p2 <= 3000 ->
  Z.abs (rating (player e1) - rating p2) <= 150 ->
  exists m w',
    addToQueue env p2 w = (Some m, w') /\
    queue w' = [] /\
    status m = starting /\
    playersHeap w' !! players m =
      Some ({| player := p2; joinedAt := now env;
               ratingRange := calculateRatingRange (rating p2) 0; ready := false |}, e1).
Proof.
  intros Hq Hne Hr1 Hr2 Habs.
  unfold addToQueue.
  set (e2 := {| player := p2; joinedAt := now env;
                ratingRange := calculateRatingRange (rating p2) 0; ready := false |}).
  set (w3 := setExpandingSearch (userId p2) _).
  assert (Hne1 : (userId (player e1) =? userId p2) = false) by (apply Z.eqb_neq; exact Hne).
  assert (Hq3 : queue w3 = [e1; e2]).
  { subst w3. rewrite setExpandingSearch_queue. cbn [queue set_queue].
    rewrite removeFromQueue_queue, Hq. cbn. rewrite Hne1. reflexivity. }
  unfold findMatch. rewrite Hq3. cbn [findOpponent].
  change (userId (player e2)) with (userId p2). rewrite Hne1.
  change (ratingRange e2) with (calculateRatingRange (rating p2) 0).
  rewrite (inRange_initial _ _ Hr1 Habs). cbn [orb].
  eexists. eexists. split; [reflexivity|].
  cbn [queue createMatch set_fresh set_stateHeap set_playersHeap snd status players playersHeap].
  split; [|split; [reflexivity|apply lookup_insert_eq]].
  rewrite !removeFromQueue_queue, Hq3. cbn.
  rewrite Hne1, Z.eqb_refl. cbn. rewrite Z.eqb_refl. reflexivity.
Qed.

(** alice (1200) is queued, bob (1300) arrives. *)
Lemma addToQueue_matches_within_150_witness :
  exists m w',
    addToQueue Examples.env0
      {| userId := 2; socketId := "socket-b"; username := "bob";
         displayName := "Bob"; rating := 1300 |} Examples.aliceQueued = (Some m, w') /\
    queue w' = [] /\
    status m = starting.
Proof.
  destruct (addToQueue_matches_within_150 Examples.env0 Examples.aliceQueued
              Examples.aliceEntry
              {| userId := 2; socketId := "socket-b"; username := "bob";
                 displayName := "Bob"; rating := 1300 |})
    as (m & w' & Hres & Hq & Hst & _).
  - vm_compute. reflexivity.
  - cbn. lia.
  - cbn. lia.
  - cbn. lia.
  - cbn. lia.
  - exists m, w'. auto.
Defined.

End MatchmakingSpec.

(** ** Socket handlers *)

Module SocketHandlersSpec.
Import SocketHandlers.

Lemma removeFromQueue_outbox (uid : Z) (w : World) :
  outbox (MatchmakingService.removeFromQueue uid w) = outbox w.
Proof.
  unfold MatchmakingService.removeFromQueue. cbn.
  destruct (searchTimeouts w !! uid); reflexivity.
Qed.

Lemma removeFromQueue_activeConnections (uid : Z) (w : World) :
  activeConnections (MatchmakingService.removeFromQueue uid w) = activeConnections w.
Proof.
  unfold MatchmakingService.removeFromQueue. cbn.
  destruct (searchTimeouts w !! uid); reflexivity.
Qed.

Lemma findMatch_outbox (env : Env) (p : QueueEntry) (w : World) :
  outbox (snd (MatchmakingService.findMatch env p w)) = outbox w.
Proof.
  unfold MatchmakingService.findMatch.
  destruct (MatchmakingService.findOpponent p (queue w)); [|reflexivity].
  cbn. rewrite !removeFromQueue_outbox. reflexivity.
Qed.

Lemma findMatch_activeConnections (env : Env) (p : QueueEntry) (w : World) :
  activeConnections (snd (MatchmakingService.findMatch env p w)) = activeConnections w.
Proof.
  unfold MatchmakingService.findMatch.
  destruct (MatchmakingService.findOpponent p (queue w)); [|reflexivity].
  cbn. rewrite !removeFromQueue_activeConnections. reflexivity.
Qed.

Lemma addToQueue_outbox (env : Env) (p : PlayerData) (w : World) :
  outbox (snd (MatchmakingService.addToQueue env p w)) = outbox w.
Proof.
  unfold MatchmakingService.addToQueue. rewrite findMatch_outbox. cbn.
  apply removeFromQueue_outbox.
Qed.

Lemma addToQueue_activeConnections (env : Env) (p : PlayerData) (w : World) :
  activeConnections (snd (MatchmakingService.addToQueue env p w)) = activeConnections w.
Proof.
  unfold MatchmakingService.addToQueue. rewrite findMatch_activeConnections. cbn.
  apply removeFromQueue_activeConnections.
Qed.

Lemma engine_createMatch_activeConnections (env : Env) (m : Match) (w : World) :
  activeConnections (GameEngine.createMatch env m w) = activeConnections w.
Proof.
  unfold GameEngine.createMatch, GameEngine.startGameLoop. cbn.
  rewrite lookup_insert_eq. reflexivity.
Qed.

Lemma engine_createMatch_outbox (env : Env) (m : Match) (w : World) :
  outbox (GameEngine.createMatch env m w) = outbox w.
Proof.
  unfold GameEngine.createMatch, GameEngine.startGameLoop. cbn.
  rewrite lookup_insert_eq. reflexivity.
Qed.

(** [handleMatchFound] never writes to [activeConnections]: the record it
    updates is looked up in [activeMatches]. *)
Lemma handleMatchFound_activeConnections (env : Env) (m : Match) (w : World) :
  activeConnections (handleMatchFound env m w) = activeConnections w.
Proof.
  unfold handleMatchFound. cbn [schedule snd set_fresh set_timers activeConnections].
  destruct (playersHeap _ !! players m); cbn;
    rewrite engine_createMatch_activeConnections; reflexivity.
Qed.

Lemma on_matchmaking_join_activeConnections (env : Env) (socket : Socket) (res : QueryResult)
    (w : World) :
  activeConnections (on_matchmaking_join env socket res w) = activeConnections w.
Proof.
  unfold on_matchmaking_join.
  destruct res as [|[user|]]; [reflexivity| |reflexivity].
  match goal with
  | |- context [MatchmakingService.addToQueue ?e ?p ?w0] =>
      pose proof (addToQueue_activeConnections e p w0) as Hc;
      destruct (MatchmakingService.addToQueue e p w0) as [[m|] w1]
  end; cbn in Hc.
  - rewrite handleMatchFound_activeConnections. exact Hc.
  - exact Hc.
Qed.

(** C1, as the code has it. A [matchmaking:join] request, also one that
    pairs two players into a match, leaves every connection record as it
    was; so a socket whose record had no current match before still has none
    afterwards, and its [game:input] is answered with the error
    "Not in a match" without reaching [updatePlayerInput]. *)
Theorem match_found_then_input_rejected (env : Env) (joining : Socket) (res : QueryResult)
    (w : World) (s : Socket) (data : GameEngine.Input) :
  currentMatchOf s w = None ->
  let w' := on_matchmaking_join env joining res w in
  activeConnections w' = activeConnections w /\
  on_game_input s data w' = emit (ToSocket (sock_id s)) (ErrorMsg "Not in a match") w'.
Proof.
  intros Hnone w'.
  assert (Hc : activeConnections w' = activeConnections w)
    by apply on_matchmaking_join_activeConnections.
  split; [exact Hc|].
  unfold on_game_input.
  assert (Hnone' : currentMatchOf s w' = None)
    by (unfold currentMatchOf in *; rewrite Hc; exact Hnone).
  rewrite Hnone'. reflexivity.
Qed.

(** alice is queued, bob joins and is paired with her in match "m1"; the
    input of either of them is then refused. *)
Lemma match_found_then_input_rejected_witness :
  (exists m, activeMatches Examples.matched !! "m1" = Some m /\
             playersHeap Examples.matched !! players m <> None) /\
  on_game_input Examples.bob {| GameEngine.paddleY := JNumber (Num 300) |} Examples.matched =
    emit (ToSocket "socket-b") (ErrorMsg "Not in a match") Examples.matched /\
  on_game_input Examples.alice {| GameEngine.paddleY := JNumber (Num 300) |} Examples.matched =
    emit (ToSocket "socket-a") (ErrorMsg "Not in a match") Examples.matched.
Proof.
  split; [eexists; split; [vm_compute; reflexivity|vm_compute; discriminate]|].
  split.
  - apply (match_found_then_input_rejected Examples.env0 Examples.bob
             (QueryRow (Some Examples.bobRow)) Examples.aliceQueued Examples.bob).
    vm_compute. reflexivity.
  - apply (match_found_then_input_rejected Examples.env0 Examples.bob
             (QueryRow (Some Examples.bobRow)) Examples.aliceQueued Examples.alice).
    vm_compute. reflexivity.
Defined.

Lemma handleMatchFound_outbox (env : Env) (m : Match) (w : World) :
  exists l,
    outbox (handleMatchFound env m w) = outbox w ++ l /\
    Forall (fun e => ~ isError e) l.
Proof.
  unfold handleMatchFound. cbn [schedule snd set_fresh set_timers outbox].
  destruct (playersHeap _ !! players m) as [ps|].
  - unfold updatePlayer. cbn [emit join set_outbox set_rooms set_activeMatches outbox].
    rewrite engine_createMatch_outbox. cbn [set_activeMatches outbox].
    rewrite <- app_assoc. eexists. split; [reflexivity|].
    repeat constructor; intros [text Ht]; discriminate.
  - rewrite engine_createMatch_outbox. exists []. split; [symmetry; apply app_nil_r|constructor].
Qed.

Lemma handleMatchFound_stored (env : Env) (m : Match) (w : World) :
  is_Some (activeMatches (handleMatchFound env m w) !! id m).
Proof.
  unfold handleMatchFound. cbn [schedule snd set_fresh set_timers activeMatches].
  assert (Hbase : is_Some (activeMatches
                     (GameEngine.createMatch env m (set_activeMatches <[id m := m]> w)) !! id m)).
  { unfold GameEngine.createMatch, GameEngine.startGameLoop. cbn.
    rewrite lookup_insert_eq. cbn. rewrite lookup_insert_eq. eauto. }
  destruct (playersHeap _ !! players m) as [ps|]; [|exact Hbase].
  unfold updatePlayer. cbn [emit join set_outbox set_rooms set_activeMatches activeMatches].
  apply lookup_alter_is_Some, lookup_alter_is_Some. exact Hbase.
Qed.

(** C4, as the code has it. A [matchmaking:join] request whose user row is
    found is never answered with an error, whatever matches the identity is
    already in: either the player is paired at once and the new match is
    stored, or an entry for the player is in the queue afterwards and the
    answer is [matchmaking:queued]. *)
Theorem join_request_is_not_rejected (env : Env) (socket : Socket) (user : UserRow) (w : World) :
  let p := {| userId := row_id user; socketId := sock_id socket;
              username := row_username user; displayName := row_display_name user;
              rating := row_rating user |} in
  let w' := on_matchmaking_join env socket (QueryRow (Some user)) w in
  (exists l, outbox w' = outbox w ++ l /\ Forall (fun e => ~ isError e) l) /\
  ((exists m, fst (MatchmakingService.addToQueue env p w) = Some m /\
              is_Some (activeMatches w' !! id m)) \/
   (fst (MatchmakingService.addToQueue env p w) = None /\
    (exists e, In e (queue w') /\ player e = p) /\
    exists n wait, outbox w' = outbox w ++ [(ToSocket (sock_id socket), MatchmakingQueued n wait)])).
Proof.
  intros p w'. subst w'. unfold on_matchmaking_join. fold p.
  pose proof (addToQueue_outbox env p w) as Hout.
  destruct (MatchmakingService.addToQueue env p w) as [[m|] w1] eqn:Eadd; cbn in Hout.
  - split.
    + destruct (handleMatchFound_outbox env m w1) as (l & Hl & Hne).
      exists l. rewrite Hl, Hout. auto.
    + left. exists m. split; [reflexivity|apply handleMatchFound_stored].
  - split.
    + eexists. cbn. rewrite Hout. split; [reflexivity|].
      repeat constructor. intros [text Ht]. discriminate.
    + right. split; [reflexivity|]. split.
      * cbn [emit set_outbox queue].
        unfold MatchmakingService.addToQueue, MatchmakingService.findMatch in Eadd.
        destruct (MatchmakingService.findOpponent _ _) in Eadd; [discriminate|].
        injection Eadd as <-. cbn.
        eexists. split; [apply in_or_app; right; left; reflexivity|reflexivity].
      * cbn. rewrite Hout. eauto.
Qed.

(** alice plays in match "m1" and asks to join the queue again: she is
    queued, and the answer is [matchmaking:queued], not an error. *)
Lemma join_while_in_match_counterexample :
  inActiveMatch 1 Examples.matched /\
  let w' := on_matchmaking_join Examples.env0 Examples.alice
              (QueryRow (Some Examples.aliceRow)) Examples.matched in
  queue w' =
    [Examples.aliceEntry] /\
  outbox w' = outbox Examples.matched ++ [(ToSocket "socket-a", MatchmakingQueued 1 30)] /\
  Forall (fun e => ~ isError e) [(ToSocket "socket-a", MatchmakingQueued 1 30)].
Proof.
  split.
  - exists "m1". eexists. eexists.
    split; [vm_compute; reflexivity|].
    split; [cbn; discriminate|].
    split; [vm_compute; reflexivity|].
    right. reflexivity.
  - cbv zeta. split; [vm_compute; reflexivity|].
    split; [vm_compute; reflexivity|].
    repeat constructor. intros [text Ht]. discriminate.
Qed.

(** *** Disconnection and the grace period *)

Lemma handlePlayerDisconnect_eq (key : string) (socket : Socket) (w : World) (m : Match) :
  activeMatches w !! key = Some m ->
  handlePlayerDisconnect key socket w =
    set_fresh S
      (set_timers <[fresh w := graceTimer m socket]>
         (set_activeMatches <[key := with_status paused m]>
            (emit (ToRoomExcept (roomId m) (sock_id socket))
                  (PlayerDisconnected (sock_username socket)) w))).
Proof. intros Hm. unfold handlePlayerDisconnect. rewrite Hm. reflexivity. Qed.

Lemma endMatch_frame (matchId : string) (w : World) :
  activeMatches (GameEngine.endMatch matchId w) = activeMatches w /\
  outbox (GameEngine.endMatch matchId w) = outbox w /\
  playersHeap (GameEngine.endMatch matchId w) = playersHeap w /\
  forall h, timers w !! h = None -> timers (GameEngine.endMatch matchId w) !! h = None.
Proof.
  unfold GameEngine.endMatch.
  destruct (matches w !! matchId) as [m|]; [|auto].
  destruct (tickInterval m); cbn; repeat split; auto.
  intros h Hh. apply lookup_delete_None. auto.
Qed.

Lemma removeMatch_frame (matchId : string) (w : World) :
  activeMatches (GameEngine.removeMatch matchId w) = activeMatches w /\
  outbox (GameEngine.removeMatch matchId w) = outbox w /\
  matches (GameEngine.removeMatch matchId w) !! matchId = None /\
  forall h, timers w !! h = None -> timers (GameEngine.removeMatch matchId w) !! h = None.
Proof.
  unfold GameEngine.removeMatch.
  destruct (matches w !! matchId) as [m|]; [destruct (tickInterval m)|]; cbn;
    repeat split; try reflexivity; try apply lookup_delete_eq;
    intros h Hh; try apply lookup_delete_None; auto.
Qed.

(** What [handlePlayerDisconnect] does once it is called on a stored match,
    for the socket of one of its two players (the [disconnect] event does
    not get there, see [DisconnectEventSpec] below): the match object's
    status becomes paused, the notification [player:disconnected] goes to
    the room without the sender, which reaches the remaining player, and a
    30000 ms timeout is scheduled. When that timeout fires in a later world
    where the match is still paused, the match leaves both [activeMatches]
    and the engine, and [match:ended] is emitted with reason
    "player_disconnect" and the remaining player's name as winner. *)
Theorem handlePlayerDisconnect_grace (w : World) (key : string) (m : Match)
    (p0 p1 : QueueEntry) (socket : Socket) :
  activeMatches w !! key = Some m ->
  id m = key ->
  playersHeap w !! players m = Some (p0, p1) ->
  socketId (player p0) <> socketId (player p1) ->
  sock_id socket = socketId (player p0) \/ sock_id socket = socketId (player p1) ->
  let remaining := if String.eqb (sock_id socket) (socketId (player p0)) then p1 else p0 in
  socketId (player remaining) ∈ default ∅ (rooms w !! roomId m) ->
  let w1 := handlePlayerDisconnect key socket w in
  let h := fresh w in
  (exists m1, activeMatches w1 !! key = Some m1 /\ status m1 = paused) /\
  (exists to, outbox w1 = outbox w ++ [(to, PlayerDisconnected (sock_username socket))] /\
              socketId (player remaining) ∈ recipients w1 to) /\
  timers w1 !! h = Some (graceTimer m socket) /\
  delay (graceTimer m socket) = 30000%Q /\
  forall (env : Env) (w2 : World) (m2 : Match) (q0 q1 : QueueEntry),
    timers w2 !! h = Some (graceTimer m socket) ->
    activeMatches w2 !! key = Some m2 ->
    status m2 = paused ->
    playersHeap w2 !! players m = Some (q0, q1) ->
    player q0 = player p0 -> player q1 = player p1 ->
    let w3 := fire env h w2 in
    activeMatches w3 !! key = None /\
    matches w3 !! key = None /\
    timers w3 !! h = None /\
    outbox w3 = outbox w2 ++
      [(ToRoom (roomId m),
        MatchEnded "player_disconnect" (Some (username (player remaining))))].
Proof.
  intros Hm Hid Hps Hne Hsock remaining Hroom w1 h.
  assert (Hrem : socketId (player remaining) <> sock_id socket).
  { subst remaining. destruct (String.eqb_spec (sock_id socket) (socketId (player p0))) as [E|E].
    - rewrite E. auto.
    - auto. }
  subst w1. rewrite (handlePlayerDisconnect_eq key socket w m Hm).
  split; [|split; [|split; [|split]]].
  - eexists. split; [cbn; apply lookup_insert_eq|reflexivity].
  - eexists. split; [reflexivity|]. cbn. apply elem_of_difference.
    split; [exact Hroom|]. intros Hin. apply elem_of_singleton in Hin. contradiction.
  - cbn. apply lookup_insert_eq.
  - reflexivity.
  - intros env w2 m2 q0 q1 Ht Hm2 Hst2 Hqs Hq0 Hq1 w3. subst w3.
    unfold fire. rewrite Ht. cbn [repeating callback graceTimer].
    unfold graceTimeout. cbn [activeMatches set_timers playersHeap].
    rewrite Hid, Hm2, Hst2, Hqs. rewrite bool_decide_eq_true_2 by reflexivity.
    set (w2' := set_timers (delete h) w2).
    destruct (endMatch_frame key w2') as (Ea1 & Eo1 & _ & Et1).
    destruct (removeMatch_frame key (GameEngine.endMatch key w2')) as (Ea2 & Eo2 & Em2 & Et2).
    cbn [emit set_outbox set_activeMatches activeMatches matches timers outbox].
    split; [apply lookup_delete_eq|].
    split; [exact Em2|].
    split; [apply Et2, Et1; subst w2'; cbn; apply lookup_delete_eq|].
    rewrite Eo2, Eo1. subst w2'. cbn [outbox set_timers].
    f_equal. f_equal. f_equal. f_equal.
    unfold findPlayer. cbn [fst snd]. rewrite Hq0, Hq1. subst remaining.
    destruct Hsock as [E|E].
    + rewrite E, String.eqb_refl. cbn.
      destruct (String.eqb_spec (socketId (player p1)) (socketId (player p0))) as [E'|E'];
        [congruence|]. cbn. rewrite Hq1. reflexivity.
    + rewrite E.
      destruct (String.eqb_spec (socketId (player p0)) (socketId (player p1))) as [E'|E'];
        [congruence|]. cbn.
      destruct (String.eqb_spec (socketId (player p1)) (socketId (player p0))) as [E''|E''];
        [congruence|]. rewrite Hq0. reflexivity.
Qed.

(** [handlePlayerDisconnect] for alice's socket and match "m1"; thirty
    seconds later the timeout fires: bob is reported as the winner. *)
Lemma handlePlayerDisconnect_grace_witness :
  (exists m1, activeMatches Examples.pausedWorld !! "m1" = Some m1 /\ status m1 = paused) /\
  let w3 := fire Examples.envTick 6 Examples.pausedWorld in
  activeMatches w3 !! "m1" = None /\
  matches w3 !! "m1" = None /\
  outbox w3 = outbox Examples.pausedWorld ++
    [(ToRoom "game-m1", MatchEnded "player_disconnect" (Some "bob"))].
Proof.
  pose (m := (Examples.m1 starting)).
  pose (b := Examples.bobEntry).
  pose (a := Examples.aliceEntry).
  destruct (handlePlayerDisconnect_grace Examples.matched "m1" m b a Examples.alice)
    as (Hpaused & _ & _ & _ & Hfire).
  - vm_compute. reflexivity.
  - reflexivity.
  - vm_compute. reflexivity.
  - cbn. discriminate.
  - right. reflexivity.
  - assert (Hin : bool_decide
                    ("socket-b" ∈ default (∅ : gset string)
                                   (rooms Examples.matched !! "game-m1")) = true)
      by (vm_compute; reflexivity).
    apply bool_decide_eq_true in Hin. exact Hin.
  - split; [exact Hpaused|].
    destruct (Hfire Examples.envTick Examples.pausedWorld (with_status paused m) b a)
      as (H1 & H2 & _ & H4).
    + vm_compute. reflexivity.
    + vm_compute. reflexivity.
    + reflexivity.
    + vm_compute. reflexivity.
    + reflexivity.
    + reflexivity.
    + cbv zeta. split; [exact H1|]. split; [exact H2|exact H4].
Defined.

(** *** Reconnection *)

(** C3, as the code has it. A new connection is stored with no current
    match, whatever matches its identity takes part in: the handler leaves
    [activeMatches], the engine's matches, the game states and the scheduler
    as they were, so a paused match stays paused and its grace timeout stays
    scheduled. *)
Theorem on_connection_does_not_rebind (env : Env) (socket : Socket) (w : World) :
  let w' := Server.on_connection env socket w in
  activeConnections w' !! sock_id socket =
    Some {| conn_userId := Some (sock_userId socket); conn_currentMatch := None;
            conn_joinedAt := now env |} /\
  activeMatches w' = activeMatches w /\
  matches w' = matches w /\
  timers w' = timers w /\
  stateHeap w' = stateHeap w.
Proof.
  cbv zeta. unfold Server.on_connection. cbn.
  rewrite lookup_alter_eq, lookup_insert_eq. repeat split; reflexivity.
Qed.

(** Match "m1" is paused after alice's disconnection and its grace timeout
    (handle 6) is pending; alice connects again on a new socket. The match
    is still paused, the timeout is still scheduled and the new connection
    has no current match; when the timeout fires the match is removed. *)
Lemma reconnect_counterexample :
  inActiveMatch 1 Examples.pausedWorld /\
  timers Examples.pausedWorld !! 6%nat =
    Some {| callback := GraceTimeout "m1" "game-m1" 2 "socket-a";
            delay := 30000; repeating := false |} /\
  let w' := Server.on_connection Examples.envTick Examples.alice2 Examples.pausedWorld in
  (exists m, activeMatches w' !! "m1" = Some m /\ status m = paused /\ status m <> playing) /\
  timers w' !! 6%nat = timers Examples.pausedWorld !! 6%nat /\
  currentMatchOf Examples.alice2 w' = None /\
  activeMatches (fire Examples.envTick 6 w') !! "m1" = None.
Proof.
  split.
  - exists "m1". eexists. eexists.
    split; [vm_compute; reflexivity|].
    split; [cbn; discriminate|].
    split; [vm_compute; reflexivity|].
    right. reflexivity.
  - split; [vm_compute; reflexivity|]. cbv zeta.
    split; [|split; [|split]; vm_compute; reflexivity].
    eexists. split; [vm_compute; reflexivity|]. split; [reflexivity|discriminate].
Qed.

(** *** The tick timer *)

(** C5, as the code has it. [endMatch] completes a match and removes its
    tick interval from the scheduler; [handlePlayerDisconnect], which pauses
    a match, leaves the tick interval scheduled. *)
Theorem tick_timer_cancelled_on_completion_only (w : World) (matchId : string)
    (m : EngineMatch) (h : nat) (t : Timer) :
  matches w !! matchId = Some m ->
  tickInterval m = Some h ->
  timers w !! h = Some t ->
  (h < fresh w)%nat ->
  (timers (GameEngine.endMatch matchId w) !! h = None /\
   exists m', matches (GameEngine.endMatch matchId w) !! matchId = Some m' /\
              status (copy m') = completed) /\
  (forall key socket am,
     activeMatches w !! key = Some am ->
     let w1 := handlePlayerDisconnect key socket w in
     (exists am1, activeMatches w1 !! key = Some am1 /\ status am1 = paused) /\
     timers w1 !! h = Some t /\
     matches w1 !! matchId = Some m).
Proof.
  intros Hm Hh Ht Hfresh. split.
  - split.
    + rewrite (GameEngineSpec.endMatch_timers w matchId m Hm), Hh. apply lookup_delete_eq.
    + eexists. split; [apply (GameEngineSpec.endMatch_lookup w matchId m Hm)|reflexivity].
  - intros key socket am Ham w1. subst w1.
    rewrite (handlePlayerDisconnect_eq key socket w am Ham). cbn.
    split; [eexists; split; [apply lookup_insert_eq|reflexivity]|].
    split; [|exact Hm].
    rewrite lookup_insert_ne by lia. exact Ht.
Qed.

Lemma tick_timer_cancelled_on_completion_only_witness :
  timers (GameEngine.endMatch "m1" Examples.matched) !! 4%nat = None /\
  timers (handlePlayerDisconnect "m1" Examples.alice Examples.matched) !! 4%nat =
    Some Examples.tickTimer.
Proof.
  destruct (tick_timer_cancelled_on_completion_only Examples.matched "m1"
              (Examples.engineM1 starting)
              4%nat
              Examples.tickTimer)
    as ((Hend & _) & Hpause).
  - vm_compute. reflexivity.
  - reflexivity.
  - vm_compute. reflexivity.
  - vm_compute. lia.
  - split; [exact Hend|].
    destruct (Hpause "m1" Examples.alice
                (Examples.m1 starting))
      as (_ & Htick & _).
    + vm_compute. reflexivity.
    + exact Htick.
Defined.

(** Match "m1" is paused by alice's disconnection: its status is paused and
    its tick interval (handle 4) is still in the scheduler. *)
Lemma pause_keeps_tick_timer_counterexample :
  (exists am, activeMatches Examples.pausedWorld !! "m1" = Some am /\ status am = paused) /\
  (exists m, matches Examples.pausedWorld !! "m1" = Some m /\ tickInterval m = Some 4%nat) /\
  timers Examples.pausedWorld !! 4%nat =
    Some Examples.tickTimer.
Proof.
  split; [eexists; split; [vm_compute; reflexivity|reflexivity]|].
  split; [eexists; split; [vm_compute; reflexivity|reflexivity]|].
  vm_compute. reflexivity.
Qed.

(** *** The two status fields of a match *)

(** [match:ready] writes the status of the object held by [activeMatches];
    the record of the engine, a copy made when the match was created, is not
    touched. *)
Lemma on_match_ready_engine (socket : Socket) (w : World) :
  matches (on_match_ready socket w) = matches w.
Proof.
  unfold on_match_ready.
  destruct (currentMatchOf socket w) as [mid|]; [|reflexivity].
  destruct (activeMatches w !! mid) as [m|]; [|reflexivity].
  destruct (playersHeap w !! players m) as [ps|]; [|reflexivity].
  destruct (String.eqb _ _); [|destruct (String.eqb _ _)]; cbn;
    try reflexivity;
    match goal with |- context [if ?c then _ else _] => destruct c end; reflexivity.
Qed.

End SocketHandlersSpec.

(** ** The disconnect event *)

Module DisconnectEventSpec.
Import SocketHandlers DisconnectHandler EnhancedPongServer DisconnectEvent.
Import MatchmakingService.

Lemma notifyOpponent_world (m : Match) (sid : string) (p : QueueEntry) (st : ServerState) :
  world (notifyOpponent m sid p st) = world st.
Proof.
  unfold notifyOpponent. destruct (String.eqb _ _); [reflexivity|].
  destruct (activeConnections (world st) !! _); reflexivity.
Qed.

Lemma handleMatchDisconnection_world (m : Match) (sid : string) (st : ServerState) :
  world (handleMatchDisconnection m sid st) = world st.
Proof.
  unfold handleMatchDisconnection. cbn [world].
  destruct (playersHeap (world st) !! players m) as [ps|]; [|reflexivity].
  rewrite !notifyOpponent_world. reflexivity.
Qed.

Lemma handleDisconnection_world (sid : string) (st : ServerState) :
  world (handleDisconnection sid st) = world st \/
  world (handleDisconnection sid st) = set_activeConnections (delete sid) (world st).
Proof.
  unfold handleDisconnection.
  destruct (activeConnections (world st) !! sid) as [c|]; [|left; reflexivity].
  right. cbn [broadcastServerStats serverEmit with_world world].
  destruct (conn_currentMatch c) as [mid|]; [|reflexivity].
  destruct (String.eqb mid ""); [reflexivity|]. cbn [world].
  destruct (activeMatches (world st) !! mid); [|reflexivity].
  rewrite handleMatchDisconnection_world. reflexivity.
Qed.

Lemma handleDisconnection_forgets (sid : string) (st : ServerState) :
  activeConnections (world (handleDisconnection sid st)) !! sid = None.
Proof.
  unfold handleDisconnection.
  destruct (activeConnections (world st) !! sid) eqn:E; [|exact E].
  cbn. apply lookup_delete_eq.
Qed.

(** Without a current match on the connection record, [handleDisconnection]
    schedules nothing and emits the statistics at most. *)
Lemma handleDisconnection_idle (socket : Socket) (st : ServerState) :
  currentMatchOf socket (world st) = None ->
  pendingEnds (handleDisconnection (sock_id socket) st) = pendingEnds st /\
  forall e, In e (emitted (handleDisconnection (sock_id socket) st)) ->
            In e (emitted st) \/ exists a b c, e = ServerStats a b c.
Proof.
  intros Hcur. unfold handleDisconnection.
  destruct (activeConnections (world st) !! sock_id socket) as [c|] eqn:Hc; [|auto].
  unfold currentMatchOf in Hcur. rewrite Hc in Hcur.
  assert (Hst2 : match conn_currentMatch c with
                 | Some mid =>
                     if String.eqb mid "" then None
                     else Some mid
                 | None => None
                 end = @None string) by exact Hcur.
  destruct (conn_currentMatch c) as [mid|].
  - destruct (String.eqb mid ""); [|discriminate]. cbn. split; [reflexivity|].
    intros e He. apply in_app_or in He. destruct He as [He|[<-|[]]]; [auto|]. right. eauto.
  - cbn. split; [reflexivity|].
    intros e He. apply in_app_or in He. destruct He as [He|[<-|[]]]; [auto|]. right. eauto.
Qed.

Lemma removeFromQueue_world (uid : Z) (w : World) :
  activeConnections (removeFromQueue uid w) = activeConnections w /\
  activeMatches (removeFromQueue uid w) = activeMatches w /\
  matches (removeFromQueue uid w) = matches w /\
  outbox (removeFromQueue uid w) = outbox w /\
  (forall h t, timers (removeFromQueue uid w) !! h = Some t -> timers w !! h = Some t).
Proof.
  unfold removeFromQueue. cbn. destruct (searchTimeouts w !! uid); cbn; repeat split; auto.
  intros h t H. apply lookup_delete_Some in H. tauto.
Qed.

(** C9, as the code has it. When a socket disconnects, the listener of
    socketHandlers.js and the one of server.js run as [on_disconnect] has
    them. For a socket with a truthy user id, or one whose connection record
    names no current match (which [handleMatchFound] never writes), the
    event leaves every match object and every engine record as it was (no
    status is set to paused), emits nothing to the players
    ([player:disconnected] is not sent) and adds no timeout to the scheduler
    (no grace period starts). With no current match on the record, server.js
    schedules nothing either and broadcasts the statistics at most. *)
Theorem disconnect_pauses_nothing (socket : Socket) (st : ServerState) :
  sock_userId socket <> 0 \/ currentMatchOf socket (world st) = None ->
  let st' := on_disconnect socket st in
  activeMatches (world st') = activeMatches (world st) /\
  matches (world st') = matches (world st) /\
  outbox (world st') = outbox (world st) /\
  (forall h t, timers (world st') !! h = Some t -> timers (world st) !! h = Some t) /\
  (currentMatchOf socket (world st) = None ->
   pendingEnds st' = pendingEnds st /\
   forall e, In e (emitted st') -> In e (emitted st) \/ exists a b c, e = ServerStats a b c).
Proof.
  intros Hcase st'. subst st'. unfold on_disconnect.
  set (st1 := with_world (on_disconnect_begin socket) st).
  destruct (removeFromQueue_world (sock_userId socket) (world st)) as (Hc & Ha & Hm & Ho & Ht).
  assert (Hw1 : world st1 = removeFromQueue (sock_userId socket) (world st)) by reflexivity.
  assert (Hcur1 : currentMatchOf socket (world st1) = currentMatchOf socket (world st)).
  { unfold currentMatchOf. rewrite Hw1, Hc. reflexivity. }
  assert (Hframe : forall st2 : ServerState,
             world st2 = world st1 ->
             let w' := world (handleDisconnection (sock_id socket) st2) in
             activeMatches w' = activeMatches (world st) /\
             matches w' = matches (world st) /\
             outbox w' = outbox (world st) /\
             (forall h t, timers w' !! h = Some t -> timers (world st) !! h = Some t)).
  { intros st2 E2. cbv zeta.
    destruct (handleDisconnection_world (sock_id socket) st2) as [-> | ->];
      rewrite E2, Hw1; cbn; auto. }
  destruct (Z.eqb_spec (sock_userId socket) 0) as [E|_].
  - destruct Hcase as [Hne|Hcur]; [contradiction|].
    assert (Hres : with_world (on_disconnect_resume socket) st1 = st1).
    { unfold with_world, on_disconnect_resume. rewrite Hcur1, Hcur. destruct st1; reflexivity. }
    rewrite Hres.
    destruct (Hframe st1 eq_refl) as (H1 & H2 & H3 & H4).
    split; [exact H1|]. split; [exact H2|]. split; [exact H3|]. split; [exact H4|].
    intros _. apply (handleDisconnection_idle socket st1). rewrite Hcur1. exact Hcur.
  - assert (Hres : on_disconnect_resume socket (world (handleDisconnection (sock_id socket) st1)) =
                   world (handleDisconnection (sock_id socket) st1)).
    { unfold on_disconnect_resume, currentMatchOf.
      rewrite handleDisconnection_forgets. reflexivity. }
    cbn [with_world world pendingEnds emitted]. rewrite !Hres.
    destruct (Hframe st1 eq_refl) as (H1 & H2 & H3 & H4).
    split; [exact H1|]. split; [exact H2|]. split; [exact H3|]. split; [exact H4|].
    intros Hcur. apply (handleDisconnection_idle socket st1). rewrite Hcur1. exact Hcur.
Qed.

(** alice and bob have been paired through the queue (match "m1", status
    starting); alice's socket disconnects. She is a player of the match, and
    after the event the match is as it was, nothing has been sent, and
    nothing is pending. The same with both connection records bound to the
    match by hand and the match started: it keeps playing. *)
Lemma disconnect_pauses_nothing_witness :
  let st' := on_disconnect Examples.alice (MoreExamples.serverOf Examples.matched) in
  let st2' := on_disconnect Examples.alice (MoreExamples.serverOf MoreExamples.bothReady) in
  inActiveMatch 1 Examples.matched /\
  activeMatches (world st') !! "m1" = Some (Examples.m1 starting) /\
  outbox (world st') = outbox Examples.matched /\
  pendingEnds st' = ∅ /\
  activeMatches (world st2') !! "m1" = Some (Examples.m1 playing) /\
  outbox (world st2') = outbox MoreExamples.bothReady.
Proof.
  destruct (disconnect_pauses_nothing Examples.alice (MoreExamples.serverOf Examples.matched))
    as (H1 & _ & H3 & _ & H5).
  { right. vm_compute. reflexivity. }
  destruct (disconnect_pauses_nothing Examples.alice (MoreExamples.serverOf MoreExamples.bothReady))
    as (K1 & _ & K3 & _).
  { left. discriminate. }
  destruct H5 as [H5 _]; [vm_compute; reflexivity|].
  cbv zeta. rewrite H1, H3, H5, K1, K3.
  split; [|repeat split; vm_compute; reflexivity].
  exists "m1"%string, (Examples.m1 starting), (Examples.bobEntry, Examples.aliceEntry).
  split; [vm_compute; reflexivity|]. split; [discriminate|].
  split; [vm_compute; reflexivity|]. right. reflexivity.
Defined.

End DisconnectEventSpec.

(** ** More on the matchmaking queue *)

Module MatchmakingExtra.
Import MatchmakingService.

Lemma Qfloor_unique (x : Q) (k : Z) :
  (inject_Z k <= x)%Q -> (x < inject_Z (k + 1))%Q -> Qfloor x = k.
Proof.
  intros Hle Hlt.
  pose proof (Qfloor_resp_le _ _ Hle) as H1. rewrite Qfloor_Z in H1.
  pose proof (Qfloor_le x) as H2.
  assert (H3 : (inject_Z (Qfloor x) < inject_Z (k + 1))%Q)
    by (eapply Qle_lt_trans; eassumption).
  rewrite <- Zlt_Qlt in H3. lia.
Qed.

(** X1. A queue entry that has waited k whole intervals of 15 seconds (and
    less than k+1) has the band rating ± (150 + 50 k), cut to [800,3000]; after
    45 seconds that is ± 300. *)
Theorem calculateRatingRange_expansion (r k : Z) (t : Q) :
  (inject_Z k * 15000 <= t)%Q ->
  (t < inject_Z (k + 1) * 15000)%Q ->
  calculateRatingRange r t =
    {| range_min := Z.max 800 (r - (150 + k * 50));
       range_max := Z.min 3000 (r + (150 + k * 50)) |}.
Proof.
  intros Hle Hlt. unfold calculateRatingRange.
  assert (Hk : Qfloor (t / 15000) = k).
  { apply Qfloor_unique.
    - apply Qle_shift_div_l; [reflexivity|exact Hle].
    - apply Qlt_shift_div_r; [reflexivity|exact Hlt]. }
  cbv zeta. rewrite Hk. reflexivity.
Qed.

Lemma calculateRatingRange_expansion_witness :
  calculateRatingRange 1200 45000 = {| range_min := 900; range_max := 1500 |}.
Proof.
  rewrite (calculateRatingRange_expansion 1200 3 45000).
  - reflexivity.
  - vm_compute. discriminate.
  - vm_compute. reflexivity.
Defined.

(** X2. The band of [calculateRatingRange] only widens with the waiting
    time, and at every time it lies inside [800,3000] on both sides. *)
Theorem calculateRatingRange_widens (r : Z) (t1 t2 : Q) :
  (t1 <= t2)%Q ->
  range_min (calculateRatingRange r t2) <= range_min (calculateRatingRange r t1) /\
  range_max (calculateRatingRange r t1) <= range_max (calculateRatingRange r t2) /\
  800 <= range_min (calculateRatingRange r t2) /\
  range_max (calculateRatingRange r t2) <= 3000.
Proof.
  intros Hle.
  assert (Hf : Qfloor (t1 / 15000) <= Qfloor (t2 / 15000)).
  { apply Qfloor_resp_le. apply Qmult_le_compat_r; [exact Hle|]. vm_compute. discriminate. }
  unfold calculateRatingRange. cbv zeta.
  set (k1 := Qfloor (t1 / 15000)) in *. set (k2 := Qfloor (t2 / 15000)) in *.
  cbn [range_min range_max]. lia.
Qed.

Lemma calculateRatingRange_widens_witness :
  range_min (calculateRatingRange 1200 30000) <= range_min (calculateRatingRange 1200 0) /\
  range_max (calculateRatingRange 1200 0) <= range_max (calculateRatingRange 1200 30000).
Proof.
  destruct (calculateRatingRange_widens 1200 0 30000) as (H1 & H2 & _).
  - vm_compute. discriminate.
  - split; assumption.
Defined.

Lemma removeFromQueue_frame (uid : Z) (w : World) :
  activeConnections (removeFromQueue uid w) = activeConnections w /\
  activeMatches (removeFromQueue uid w) = activeMatches w /\
  matches (removeFromQueue uid w) = matches w /\
  playersHeap (removeFromQueue uid w) = playersHeap w /\
  stateHeap (removeFromQueue uid w) = stateHeap w /\
  fresh (removeFromQueue uid w) = fresh w /\
  rooms (removeFromQueue uid w) = rooms w /\
  outbox (removeFromQueue uid w) = outbox w.
Proof.
  unfold removeFromQueue. cbn. destruct (searchTimeouts w !! uid); cbn; repeat split.
Qed.

Lemma removeFromQueue_queue_filter (uid : Z) (w : World) :
  queue (removeFromQueue uid w) =
    List.filter (fun p => negb (userId (player p) =? uid)) (queue w).
Proof.
  unfold removeFromQueue. cbn. destruct (searchTimeouts w !! uid); reflexivity.
Qed.

Lemma removeFromQueue_searchTimeouts (uid : Z) (w : World) :
  searchTimeouts (removeFromQueue uid w) = delete uid (searchTimeouts w).
Proof.
  unfold removeFromQueue. cbn. destruct (searchTimeouts w !! uid) eqn:E; cbn; [reflexivity|].
  symmetry. apply delete_id. exact E.
Qed.

Lemma removeFromQueue_timers (uid : Z) (w : World) :
  timers (removeFromQueue uid w) =
    match searchTimeouts w !! uid with
    | Some h => delete h (timers w)
    | None => timers w
    end.
Proof.
  unfold removeFromQueue. cbn. destruct (searchTimeouts w !! uid); reflexivity.
Qed.

(** X3. [removeFromQueue] leaves exactly the entries of the other users, in
    their order, forgets the user's expansion timeout and removes that
    timeout from the scheduler. Everything else is as it was: the timeouts
    of other users, every other entry of the scheduler, and all other fields
    of the world. *)
Theorem removeFromQueue_removes (uid : Z) (w : World) :
  let w' := removeFromQueue uid w in
  (forall e, In e (queue w') <-> In e (queue w) /\ userId (player e) <> uid) /\
  queue w' = List.filter (fun p => negb (userId (player p) =? uid)) (queue w) /\
  searchTimeouts w' !! uid = None /\
  (forall h, searchTimeouts w !! uid = Some h -> timers w' !! h = None) /\
  (forall u, u <> uid -> searchTimeouts w' !! u = searchTimeouts w !! u) /\
  (forall h, searchTimeouts w !! uid <> Some h -> timers w' !! h = timers w !! h) /\
  activeConnections w' = activeConnections w /\
  activeMatches w' = activeMatches w /\
  matches w' = matches w /\
  playersHeap w' = playersHeap w /\
  stateHeap w' = stateHeap w /\
  fresh w' = fresh w /\
  rooms w' = rooms w /\
  outbox w' = outbox w.
Proof.
  cbv zeta. rewrite removeFromQueue_queue_filter, removeFromQueue_searchTimeouts,
    removeFromQueue_timers.
  split; [|split; [reflexivity|split; [apply lookup_delete_eq|split; [|split; [|split]]]]].
  - intros e. rewrite filter_In, negb_true_iff, Z.eqb_neq. reflexivity.
  - intros h Hh. rewrite Hh. apply lookup_delete_eq.
  - intros u Hu. apply lookup_delete_ne. congruence.
  - intros h Hh. destruct (searchTimeouts w !! uid) as [h'|]; [|reflexivity].
    apply lookup_delete_ne. congruence.
  - apply removeFromQueue_frame.
Qed.

Lemma filter_all {A} (f : A -> bool) (l : list A) :
  (forall x, In x l -> f x = true) -> List.filter f l = l.
Proof.
  induction l as [|a l IH]; intros H; [reflexivity|]. cbn.
  rewrite (H a (or_introl eq_refl)). f_equal. apply IH. intros x Hx. apply H. right. exact Hx.
Qed.

(** X4. [removeFromQueue] for a user who has neither a queue entry nor an
    expansion timeout changes nothing. *)
Theorem removeFromQueue_absent (uid : Z) (w : World) :
  (forall e, In e (queue w) -> userId (player e) <> uid) ->
  searchTimeouts w !! uid = None ->
  removeFromQueue uid w = w.
Proof.
  intros Hq Ht. unfold removeFromQueue. cbn. rewrite Ht.
  destruct w. unfold set_queue. cbn in *. f_equal.
  apply filter_all. intros x Hx. apply negb_true_iff, Z.eqb_neq. apply Hq. exact Hx.
Qed.

Lemma removeFromQueue_absent_witness :
  removeFromQueue 3 Examples.aliceQueued = Examples.aliceQueued.
Proof.
  apply removeFromQueue_absent.
  - intros e He. vm_compute in He. destruct He as [<-|[]]. cbn. lia.
  - vm_compute. reflexivity.
Defined.

Lemma NoDup_queueIds_filter (f : QueueEntry -> bool) (q : list QueueEntry) :
  List.NoDup (queueIds q) -> List.NoDup (queueIds (List.filter f q)).
Proof.
  induction q as [|a q IH]; intros Hnd; [constructor|].
  cbn in Hnd. apply List.NoDup_cons_iff in Hnd as [Hnotin Hnd]. cbn.
  destruct (f a); [|apply IH; exact Hnd]. cbn. apply List.NoDup_cons.
  - intros Hin. apply Hnotin. unfold queueIds in *. apply in_map_iff in Hin as (x & Hx & Hin).
    apply in_map_iff. exists x. split; [exact Hx|]. apply filter_In in Hin. tauto.
  - apply IH. exact Hnd.
Qed.

Lemma queueIds_filter_notin (uid : Z) (q : list QueueEntry) :
  ~ In uid (queueIds (List.filter (fun p => negb (userId (player p) =? uid)) q)).
Proof.
  unfold queueIds. intros Hin. apply in_map_iff in Hin as (x & Hx & Hin).
  apply filter_In in Hin as [_ Hne]. apply negb_true_iff, Z.eqb_neq in Hne. contradiction.
Qed.

Lemma NoDup_queueIds_snoc (q : list QueueEntry) (e : QueueEntry) :
  List.NoDup (queueIds q) -> ~ In (userId (player e)) (queueIds q) ->
  List.NoDup (queueIds (q ++ [e])).
Proof.
  intros Hnd Hnotin. unfold queueIds in *. rewrite map_app. cbn.
  induction (List.map (fun e0 => userId (player e0)) q) as [|a l IH]; cbn.
  - constructor; [intros []|constructor].
  - apply List.NoDup_cons_iff in Hnd as [Ha Hnd]. apply List.NoDup_cons.
    + intros Hin. apply in_app_or in Hin as [Hin|[Hin|[]]]; [contradiction|].
      apply Hnotin. left. symmetry. exact Hin.
    + apply IH; [exact Hnd|]. intros Hin. apply Hnotin. right. exact Hin.
Qed.

Lemma findMatch_queue (env : Env) (p : QueueEntry) (w : World) :
  queue (snd (findMatch env p w)) =
    match findOpponent p (queue w) with
    | Some o =>
        List.filter (fun x => negb (userId (player x) =? userId (player o)))
          (List.filter (fun x => negb (userId (player x) =? userId (player p))) (queue w))
    | None => queue w
    end.
Proof.
  unfold findMatch. destruct (findOpponent p (queue w)); [|reflexivity].
  cbn. rewrite !removeFromQueue_queue_filter. reflexivity.
Qed.

Lemma addToQueue_pushed (env : Env) (p : PlayerData) (w : World) :
  queue (setExpandingSearch (userId p)
           (set_queue (fun q => q ++ [newEntry env p]) (removeFromQueue (userId p) w))) =
    List.filter (fun x => negb (userId (player x) =? userId p)) (queue w) ++ [newEntry env p].
Proof. cbn. rewrite removeFromQueue_queue_filter. reflexivity. Qed.

(** X5. [addToQueue] keeps the queue free of duplicates: if no user id
    occurs twice before the call, none does after it, whether a match was
    found or not. *)
Theorem addToQueue_keeps_ids_unique (env : Env) (p : PlayerData) (w : World) :
  List.NoDup (queueIds (queue w)) ->
  List.NoDup (queueIds (queue (snd (addToQueue env p w)))).
Proof.
  intros Hnd. unfold addToQueue. fold (newEntry env p).
  rewrite findMatch_queue, addToQueue_pushed.
  assert (Hpushed : List.NoDup (queueIds
            (List.filter (fun x => negb (userId (player x) =? userId p)) (queue w)
               ++ [newEntry env p]))).
  { apply NoDup_queueIds_snoc; [apply NoDup_queueIds_filter; exact Hnd|].
    apply queueIds_filter_notin. }
  destruct (findOpponent _ _); [|exact Hpushed].
  apply NoDup_queueIds_filter, NoDup_queueIds_filter. exact Hpushed.
Qed.

Lemma addToQueue_keeps_ids_unique_witness :
  List.NoDup (queueIds (queue (snd (addToQueue Examples.env0 MoreExamples.carolData
                                      Examples.aliceQueued)))).
Proof.
  apply addToQueue_keeps_ids_unique.
  vm_compute. constructor; [intros []|constructor].
Defined.

Lemma findOpponent_None (p : QueueEntry) (q : list QueueEntry) :
  findOpponent p q = None <->
  forall x, In x q -> userId (player x) = userId (player p) \/ compatible p x = false.
Proof.
  induction q as [|a q IH]; cbn [findOpponent].
  - split; [intros _ x []|reflexivity].
  - destruct (Z.eqb_spec (userId (player a)) (userId (player p))) as [E|E].
    + rewrite IH. split.
      * intros H x [<-|Hx]; [left; exact E|apply H; exact Hx].
      * intros H x Hx. apply H. right. exact Hx.
    + fold (compatible p a). destruct (compatible p a) eqn:Ec.
      * split; [discriminate|]. intros H.
        destruct (H a (or_introl eq_refl)) as [H'|H']; [contradiction|congruence].
      * rewrite IH. split.
        -- intros H x [<-|Hx]; [right; exact Ec|apply H; exact Hx].
        -- intros H x Hx. apply H. right. exact Hx.
Qed.


Lemma addToQueue_no_partner_eq (env : Env) (p : PlayerData) (w : World) :
  (forall x, In x (queue w) -> userId (player x) <> userId p ->
             compatible (newEntry env p) x = false) ->
  addToQueue env p w =
    (None, setExpandingSearch (userId p)
             (set_queue (fun q => q ++ [newEntry env p]) (removeFromQueue (userId p) w))).
Proof.
  intros Hnone. unfold addToQueue. fold (newEntry env p).
  set (w3 := setExpandingSearch (userId p) _).
  assert (Hq3 : queue w3 =
                  List.filter (fun x => negb (userId (player x) =? userId p)) (queue w)
                    ++ [newEntry env p]) by apply addToQueue_pushed.
  assert (Hfind : findOpponent (newEntry env p) (queue w3) = None).
  { apply findOpponent_None. rewrite Hq3. intros x Hx.
    apply in_app_or in Hx as [Hx|[<-|[]]]; [|left; reflexivity].
    apply filter_In in Hx as [Hx Hne]. apply negb_true_iff, Z.eqb_neq in Hne.
    right. apply Hnone; assumption. }
  unfold findMatch. rewrite Hfind. reflexivity.
Qed.

(** X6. When no entry of another user is compatible with the newcomer,
    [addToQueue] returns no match: the newcomer's fresh entry is the last one
    of the queue, any earlier entry of the same user is gone, and a 15 second
    expansion timeout is registered for the user. *)
Theorem addToQueue_without_partner (env : Env) (p : PlayerData) (w : World) :
  (forall x, In x (queue w) -> userId (player x) <> userId p ->
             compatible (newEntry env p) x = false) ->
  let r := addToQueue env p w in
  fst r = None /\
  queue (snd r) =
    List.filter (fun x => negb (userId (player x) =? userId p)) (queue w) ++ [newEntry env p] /\
  searchTimeouts (snd r) !! userId p = Some (fresh w) /\
  timers (snd r) !! fresh w =
    Some {| callback := ExpandSearch (userId p); delay := 15000; repeating := false |}.
Proof.
  intros Hnone. cbv zeta. rewrite (addToQueue_no_partner_eq env p w Hnone). cbn [fst snd].
  split; [reflexivity|]. split; [apply addToQueue_pushed|].
  unfold setExpandingSearch, schedule. cbn.
  destruct (removeFromQueue_frame (userId p) w) as (_ & _ & _ & _ & _ & Hfresh & _).
  rewrite Hfresh. split; apply lookup_insert_eq.
Qed.

Lemma addToQueue_without_partner_witness :
  fst (addToQueue Examples.env0 MoreExamples.carolData Examples.aliceQueued) = None /\
  queue (snd (addToQueue Examples.env0 MoreExamples.carolData Examples.aliceQueued)) =
    [Examples.aliceEntry; MoreExamples.carolEntry].
Proof.
  destruct (addToQueue_without_partner Examples.env0 MoreExamples.carolData Examples.aliceQueued)
    as (H1 & H2 & _).
  - intros x Hx _. vm_compute in Hx. destruct Hx as [<-|[]]. vm_compute. reflexivity.
  - split; [exact H1|]. rewrite H2. vm_compute. reflexivity.
Defined.




(** X8. When the periodic [expandSearch] of a queued user finds an opponent,
    both entries leave the queue but the match that [findMatch] returns is
    dropped: nothing is stored in [activeMatches] or in the engine, no event
    is emitted, and a new expansion timeout is registered for the user. *)
Theorem expandSearch_drops_pair (env : Env) (uid : Z) (w : World) (p o : QueueEntry) :
  List.find (fun x => userId (player x) =? uid) (queue w) = Some p ->
  let p' := {| player := player p; joinedAt := joinedAt p;
               ratingRange := calculateRatingRange (rating (player p)) (now env - joinedAt p);
               ready := ready p |} in
  findOpponent p' (updateEntry uid (fun _ => p') (queue w)) = Some o ->
  let w' := expandSearch env uid w in
  (forall e, In e (queue w') ->
             userId (player e) <> uid /\ userId (player e) <> userId (player o)) /\
  activeMatches w' = activeMatches w /\
  matches w' = matches w /\
  activeConnections w' = activeConnections w /\
  rooms w' = rooms w /\
  outbox w' = outbox w /\
  exists h t, searchTimeouts w' !! uid = Some h /\ timers w' !! h = Some t /\
              callback t = ExpandSearch uid.
Proof.
  intros Hfind p' Hopp w'. subst w'. unfold expandSearch. rewrite Hfind. fold p'.
  assert (Huid : userId (player p') = uid).
  { apply find_some in Hfind as [_ H]. apply Z.eqb_eq in H. exact H. }
  unfold findMatch. cbn [queue set_queue]. rewrite Hopp.
  cbn [snd createMatch].
  set (w0 := set_queue (updateEntry uid (fun _ => p')) w).
  destruct (removeFromQueue_frame (userId (player p')) w0)
    as (Hc1 & Ha1 & Hm1 & _ & _ & _ & Hr1 & Ho1).
  destruct (removeFromQueue_frame (userId (player o)) (removeFromQueue (userId (player p')) w0))
    as (Hc2 & Ha2 & Hm2 & _ & _ & _ & Hr2 & Ho2).
  unfold setExpandingSearch, schedule.
  cbn [queue activeMatches matches activeConnections rooms outbox searchTimeouts timers fresh
       set_searchTimeouts set_fresh set_timers set_stateHeap set_playersHeap].
  rewrite Hc2, Hc1, Ha2, Ha1, Hm2, Hm1, Hr2, Hr1, Ho2, Ho1.
  split; [|repeat split].
  - intros e He. rewrite !removeFromQueue_queue_filter in He.
    apply filter_In in He as [He Hne2]. apply filter_In in He as [_ Hne1].
    apply negb_true_iff, Z.eqb_neq in Hne1, Hne2. rewrite Huid in Hne1. auto.
  - eexists. eexists. split; [apply lookup_insert_eq|].
    split; [apply lookup_insert_eq|reflexivity].
Qed.

(** alice has waited 200 seconds beside carol: her band now reaches carol's
    rating; both leave the queue and nothing else records the pairing. *)
Lemma expandSearch_drops_pair_witness :
  let w' := expandSearch MoreExamples.envLate 1 MoreExamples.twoQueued in
  queue MoreExamples.twoQueued = [Examples.aliceEntry; MoreExamples.carolEntry] /\
  queue w' = [] /\
  activeMatches w' = activeMatches MoreExamples.twoQueued /\
  outbox w' = outbox MoreExamples.twoQueued.
Proof.
  destruct (expandSearch_drops_pair MoreExamples.envLate 1 MoreExamples.twoQueued
              Examples.aliceEntry MoreExamples.carolEntry)
    as (_ & Ha & _ & _ & _ & Ho & _).
  - vm_compute. reflexivity.
  - vm_compute. reflexivity.
  - cbv zeta. split; [vm_compute; reflexivity|]. split; [vm_compute; reflexivity|].
    split; [exact Ha|exact Ho].
Defined.

End MatchmakingExtra.

Module QueueStatisticsSpec.
Import QueueStatistics.

(** X9. The five rating classes of [getQueueStats] partition the queue:
    their counts add up to [total], the length of the queue. *)
Theorem getQueueStats_partition (w : World) :
  let s := getQueueStats w in
  total s =
    (bronze (byRating s) + silver (byRating s) + gold (byRating s) +
     platinum (byRating s) + diamond (byRating s))%nat /\
  total s = length (queue w).
Proof.
  cbv zeta. split; [|reflexivity].
  unfold getQueueStats, countWhere. cbn [total byRating bronze silver gold platinum diamond].
  induction (queue w) as [|e q IH]; [reflexivity|].
  cbn [List.filter length]. rewrite IH.
  destruct (Z.ltb_spec (rating (player e)) 1000), (Z.leb_spec 1000 (rating (player e))),
    (Z.ltb_spec (rating (player e)) 1400), (Z.leb_spec 1400 (rating (player e))),
    (Z.ltb_spec (rating (player e)) 1800), (Z.leb_spec 1800 (rating (player e))),
    (Z.ltb_spec (rating (player e)) 2200), (Z.leb_spec 2200 (rating (player e)));
    cbn [andb length]; lia.
Qed.

End QueueStatisticsSpec.

(** ** More on the game engine *)

Module GameEngineExtra.
Import GameEngine.

Lemma Qle_bool_false_lt (a b : Q) : Qle_bool a b = false -> (b < a)%Q.
Proof.
  intros H. apply Qnot_le_lt. intros Hle. apply Qle_bool_iff in Hle. congruence.
Qed.

(** X10. [GameEngine.createMatch] stores a record with the tick interval it
    schedules (every 1000/60 ms) and makes the game state readable through
    [getMatchState]; [removeMatch] then restores the engine's map and the
    scheduler to what they were. *)
Theorem createMatch_then_removeMatch (env : Env) (m : Match) (w : World) :
  matches w !! id m = None ->
  timers w !! fresh w = None ->
  let w1 := createMatch env m w in
  matches w1 !! id m =
    Some {| copy := m; lastTick := now env; tickInterval := Some (fresh w); winner := None |} /\
  timers w1 !! fresh w =
    Some {| callback := TickInterval (id m); delay := 1000 / 60; repeating := true |} /\
  getMatchState (id m) w1 = stateHeap w !! gameState m /\
  matches (removeMatch (id m) w1) = matches w /\
  timers (removeMatch (id m) w1) = timers w /\
  getMatchState (id m) (removeMatch (id m) w1) = None.
Proof.
  intros Hm Ht w1. subst w1.
  unfold createMatch, startGameLoop. cbn [matches set_matches].
  rewrite lookup_insert_eq. unfold schedule. cbn [fst snd].
  unfold getMatchState, removeMatch.
  cbn [matches timers stateHeap fresh set_matches set_timers set_fresh with_tickInterval
       copy lastTick tickInterval winner].
  rewrite !lookup_insert_eq. unfold with_tickInterval, clearTimer.
  cbn [tickInterval matches timers set_timers set_matches set_fresh copy stateHeap
       lastTick winner fresh].
  rewrite lookup_delete_eq, insert_insert_eq.
  rewrite (delete_insert_id _ _ _ Hm), (delete_insert_id _ _ _ Ht).
  repeat split; reflexivity.
Qed.

Lemma createMatch_then_removeMatch_witness :
  let w1 := createMatch Examples.env0 (Examples.m1 starting) Examples.aliceQueued in
  getMatchState "m1" w1 = None /\
  matches (removeMatch "m1" w1) = matches Examples.aliceQueued /\
  timers (removeMatch "m1" w1) = timers Examples.aliceQueued.
Proof.
  destruct (createMatch_then_removeMatch Examples.env0 (Examples.m1 starting)
              Examples.aliceQueued) as (_ & _ & H3 & H4 & H5 & _).
  - vm_compute. reflexivity.
  - vm_compute. reflexivity.
  - cbv zeta. cbn [Examples.m1 id] in H3, H4, H5.
    split; [rewrite H3; vm_compute; reflexivity|]. split; assumption.
Defined.

Lemma stepState_court (env : Env) (dt : Q) (gs : GameState) :
  let b := ball (stepState env dt gs) in
  (0 < ball_x b)%Q /\ (ball_x b < 800)%Q /\ (10 <= ball_y b)%Q /\ (ball_y b <= 590)%Q.
Proof.
  cbv zeta. unfold stepState.
  set (x1 := (ball_x (ball gs) + ball_vx (ball gs) * dt * 60)%Q).
  set (y1 := (ball_y (ball gs) + ball_vy (ball gs) * dt * 60)%Q).
  cbn [ball_x ball_y ball_vx ball_vy].
  set (b2 := if Qle_bool y1 10 || Qle_bool 590 y1 then _ else _).
  assert (Hb2 : ball_x b2 = x1 /\ (10 <= ball_y b2)%Q /\ (ball_y b2 <= 590)%Q).
  { subst b2. destruct (Qle_bool y1 10) eqn:E1; [|destruct (Qle_bool 590 y1) eqn:E2];
      cbn [orb ball_x ball_y].
    - split; [reflexivity|]. split; [apply Q.le_max_l|].
      apply Q.max_lub; [vm_compute; discriminate|apply Q.le_min_l].
    - split; [reflexivity|]. split; [apply Q.le_max_l|].
      apply Q.max_lub; [vm_compute; discriminate|apply Q.le_min_l].
    - apply Qle_bool_false_lt in E1, E2. split; [reflexivity|]. split; apply Qlt_le_weak; assumption. }
  destruct Hb2 as (Hx2 & Hy2a & Hy2b).
  destruct (GameEngineSpec.handlePaddleCollision_position b2 (paddles_left gs) (paddles_right gs))
    as [Hx3 Hy3].
  set (b3 := handlePaddleCollision b2 _ _) in *.
  destruct (Qle_bool (ball_x b3) 0) eqn:E0; [|destruct (Qle_bool 800 (ball_x b3)) eqn:E8];
    cbn [ball resetBall ball_x ball_y].
  - repeat split; vm_compute; congruence.
  - repeat split; vm_compute; congruence.
  - apply Qle_bool_false_lt in E0, E8. rewrite Hy3. auto.
Qed.

Lemma stepState_paddles (env : Env) (dt : Q) (gs : GameState) :
  paddle_y (paddles_left (stepState env dt gs)) = paddle_y (paddles_left gs) /\
  paddle_y (paddles_right (stepState env dt gs)) = paddle_y (paddles_right gs).
Proof.
  unfold stepState. destruct (Qle_bool _ 0); [split; reflexivity|].
  destruct (Qle_bool 800 _); split; reflexivity.
Qed.

(** X11. After every tick of a playing match the ball is inside the court
    (0 < x < 800 and 10 <= y <= 590), no score has decreased, at most one
    point was given, the paddles have not moved, and [lastUpdate] is the
    time of the tick. *)
Theorem tick_invariants (env : Env) (w : World) (matchId : string)
    (m : EngineMatch) (gs : GameState) :
  matches w !! matchId = Some m ->
  status (copy m) = playing ->
  stateHeap w !! gameState (copy m) = Some gs ->
  exists gs',
    stateHeap (updateGameState env matchId w) !! gameState (copy m) = Some gs' /\
    (0 < ball_x (ball gs'))%Q /\ (ball_x (ball gs') < 800)%Q /\
    (10 <= ball_y (ball gs'))%Q /\ (ball_y (ball gs') <= 590)%Q /\
    score (paddles_left gs) <= score (paddles_left gs') /\
    score (paddles_right gs) <= score (paddles_right gs') /\
    score (paddles_left gs') + score (paddles_right gs') <=
      score (paddles_left gs) + score (paddles_right gs) + 1 /\
    paddle_y (paddles_left gs') = paddle_y (paddles_left gs) /\
    paddle_y (paddles_right gs') = paddle_y (paddles_right gs) /\
    lastUpdate gs' = now env.
Proof.
  intros Hm Hst Hgs. eexists.
  split; [apply (GameEngineSpec.updateGameState_stateHeap env w matchId m gs Hm Hst Hgs)|].
  set (dt := ((now env - lastTick m) / 1000)%Q).
  destruct (stepState_court env dt gs) as (H1 & H2 & H3 & H4).
  pose proof (GameEngineSpec.stepState_scores env dt gs) as Hsc. cbv zeta in Hsc.
  destruct (stepState_paddles env dt gs) as [Hpl Hpr].
  cbn [with_lastUpdate ball paddles_left paddles_right lastUpdate].
  split; [exact H1|]. split; [exact H2|]. split; [exact H3|]. split; [exact H4|].
  split; [lia|]. split; [lia|]. split; [lia|].
  split; [exact Hpl|]. split; [exact Hpr|reflexivity].
Qed.


Lemma tick_invariants_witness :
  exists gs',
    stateHeap (updateGameState Examples.envTick "m1" Examples.playingWorld) !! 3%nat = Some gs' /\
    (0 < ball_x (ball gs'))%Q /\ (ball_x (ball gs') < 800)%Q /\
    (10 <= ball_y (ball gs'))%Q /\ (ball_y (ball gs') <= 590)%Q.
Proof.
  destruct (tick_invariants Examples.envTick Examples.playingWorld "m1"
              (Examples.engineM1 playing) (Examples.stateOf Examples.centredBall 0 0))
    as (gs' & H0 & H1 & H2 & H3 & H4 & _).
  - vm_compute. reflexivity.
  - reflexivity.
  - vm_compute. reflexivity.
  - exists gs'. auto.
Defined.

(** X15. Paddles whose position is NaN deflect nothing: the ball passes
    [handlePaddleCollision] unchanged wherever it is. *)
Theorem NaN_paddle_never_deflects (b : Ball) (l r : Paddle) :
  paddle_y l = NaN -> paddle_y r = NaN ->
  handlePaddleCollision b l r = b.
Proof.
  intros Hl Hr. unfold handlePaddleCollision, withinPaddle. rewrite Hl, Hr.
  destruct (Qle_bool (ball_x b) 20 && Qle_bool 10 (ball_x b));
    destruct (Qle_bool 780 (ball_x b) && Qle_bool (ball_x b) 790); reflexivity.
Qed.

Lemma NaN_paddle_never_deflects_witness :
  let b := {| ball_x := 15; ball_y := 250; ball_vx := -5; ball_vy := 0 |} in
  handlePaddleCollision b {| paddle_y := NaN; score := 0 |} {| paddle_y := NaN; score := 0 |} = b.
Proof.
  intros b. apply NaN_paddle_never_deflects; reflexivity.
Defined.

(** X16. A tick of a playing match either leaves both scores as they were,
    or it gives exactly one point to one side and then the ball restarts at
    the centre (400,300), going right (vx = 5) when the first random draw
    exceeds 0.5 and left (vx = -5) otherwise. *)
Theorem tick_point_restarts_ball (env : Env) (w : World) (matchId : string)
    (m : EngineMatch) (gs : GameState) :
  matches w !! matchId = Some m ->
  status (copy m) = playing ->
  stateHeap w !! gameState (copy m) = Some gs ->
  exists gs',
    stateHeap (updateGameState env matchId w) !! gameState (copy m) = Some gs' /\
    ((score (paddles_left gs') = score (paddles_left gs) /\
      score (paddles_right gs') = score (paddles_right gs)) \/
     (((score (paddles_left gs') = score (paddles_left gs) + 1 /\
        score (paddles_right gs') = score (paddles_right gs)) \/
       (score (paddles_left gs') = score (paddles_left gs) /\
        score (paddles_right gs') = score (paddles_right gs) + 1)) /\
      ball_x (ball gs') = 400%Q /\ ball_y (ball gs') = 300%Q /\
      ball_vx (ball gs') = (if Qlt_bool 0.5 (random1 env) then 5%Q else (-5)%Q))).
Proof.
  intros Hm Hst Hgs. eexists.
  split; [apply (GameEngineSpec.updateGameState_stateHeap env w matchId m gs Hm Hst Hgs)|].
  unfold stepState.
  match goal with
  | |- context [handlePaddleCollision ?b ?l ?r] => set (b3 := handlePaddleCollision b l r)
  end.
  destruct (Qle_bool (ball_x b3) 0); [|destruct (Qle_bool 800 (ball_x b3))];
    cbn [with_lastUpdate ball paddles_left paddles_right resetBall incrScore score
         ball_x ball_y ball_vx ball_vy].
  - right. split; [right; split; reflexivity|]. repeat split.
  - right. split; [left; split; reflexivity|]. repeat split.
  - left. split; reflexivity.
Qed.

(** The ball at x = 3 moving left at 5 per frame, ticked 17 ms after the
    last tick at 2-4: the right side gets its fifth point. *)
Lemma tick_point_restarts_ball_witness :
  let w := Examples.withEngineState
             {| ball_x := 3; ball_y := 300; ball_vx := -5; ball_vy := 0 |} 2 4
             Examples.matched in
  exists gs',
    stateHeap (updateGameState MoreExamples.envMs17 "m1" w) !! 3%nat = Some gs' /\
    score (paddles_left gs') = 2 /\ score (paddles_right gs') = 5 /\
    ball_x (ball gs') = 400%Q /\ ball_y (ball gs') = 300%Q /\ ball_vx (ball gs') = 5%Q.
Proof.
  intros w.
  destruct (tick_point_restarts_ball MoreExamples.envMs17 w "m1" (Examples.engineM1 playing)
              (Examples.stateOf {| ball_x := 3; ball_y := 300; ball_vx := -5; ball_vy := 0 |} 2 4))
    as (gs' & H0 & H).
  - vm_compute. reflexivity.
  - reflexivity.
  - vm_compute. reflexivity.
  - exists gs'. split; [exact H0|].
    assert (Hs : stateHeap (updateGameState MoreExamples.envMs17 "m1" w) !! 3%nat =
                 Some {| ball := resetBall 0.75 0.5;
                         paddles_left := {| paddle_y := Num 250; score := 2 |};
                         paddles_right := {| paddle_y := Num 250; score := 5 |};
                         lastUpdate := 1017 |}) by (vm_compute; reflexivity).
    cbn [Examples.engineM1 copy Examples.m1 gameState] in H0.
    rewrite H0 in Hs. injection Hs as ->. repeat split.
Defined.


(** X17. [endMatch] is idempotent: a second call changes nothing. *)
Theorem endMatch_idempotent (matchId : string) (w : World) :
  endMatch matchId (endMatch matchId w) = endMatch matchId w.
Proof.
  destruct (matches w !! matchId) as [m|] eqn:Hm.
  - pose proof (GameEngineSpec.endMatch_lookup w matchId m Hm) as Hlk.
    pose proof (GameEngineSpec.endMatch_stateHeap w matchId) as Hheap.
    unfold endMatch at 1. rewrite Hlk, Hheap.
    cbn [copy tickInterval winner lastTick with_status gameState].
    unfold endMatch. rewrite Hm.
    destruct (stateHeap w !! gameState (copy m)) as [gs|];
      destruct (tickInterval m) as [h|];
      unfold clearTimer, set_matches, set_timers; cbn;
      rewrite ?insert_insert_eq, ?delete_delete_eq; reflexivity.
  - unfold endMatch. rewrite Hm. rewrite Hm. reflexivity.
Qed.

(** X18. After [removeMatch] the engine knows nothing of the match: no
    state is returned, input is refused, ticks and [endMatch] do nothing, and
    its tick interval is gone from the scheduler. The other matches, the game
    state object and [activeMatches] are not touched. *)
Theorem removeMatch_forgets (matchId : string) (w : World) :
  let w' := removeMatch matchId w in
  getMatchState matchId w' = None /\
  (forall playerId input, updatePlayerInput matchId playerId input w' = (false, w')) /\
  (forall env, updateGameState env matchId w' = w') /\
  endMatch matchId w' = w' /\
  (forall m h, matches w !! matchId = Some m -> tickInterval m = Some h ->
               timers w' !! h = None) /\
  (forall k, k <> matchId -> matches w' !! k = matches w !! k) /\
  stateHeap w' = stateHeap w /\
  activeMatches w' = activeMatches w.
Proof.
  cbv zeta.
  assert (Hgone : matches (removeMatch matchId w) !! matchId = None).
  { unfold removeMatch. cbn. apply lookup_delete_eq. }
  split; [unfold getMatchState; rewrite Hgone; reflexivity|].
  split; [intros; unfold updatePlayerInput; rewrite Hgone; reflexivity|].
  split; [intros; unfold updateGameState; rewrite Hgone; reflexivity|].
  split; [unfold endMatch; rewrite Hgone; reflexivity|].
  assert (Hmatches : matches (removeMatch matchId w) = delete matchId (matches w)).
  { unfold removeMatch.
    destruct (matches w !! matchId) as [m|]; [destruct (tickInterval m)|]; reflexivity. }
  split; [|split; [|split]].
  - intros m h Hm Hh. unfold removeMatch. rewrite Hm, Hh. cbn. apply lookup_delete_eq.
  - intros k Hk. rewrite Hmatches. apply lookup_delete_ne. congruence.
  - unfold removeMatch.
    destruct (matches w !! matchId) as [m|]; [destruct (tickInterval m)|]; reflexivity.
  - unfold removeMatch.
    destruct (matches w !! matchId) as [m|]; [destruct (tickInterval m)|]; reflexivity.
Qed.

(** X19. Of two accepted inputs from the same player only the last counts:
    the world after both is the world after the second alone. *)
Theorem updatePlayerInput_last_write_wins (w : World) (matchId : string) (playerId : Z)
    (q1 q2 : Q) (m : EngineMatch) (ps : QueueEntry * QueueEntry) (gs : GameState)
    (ix : PlayerIx) :
  matches w !! matchId = Some m ->
  status (copy m) = playing ->
  playersHeap w !! players (copy m) = Some ps ->
  stateHeap w !! gameState (copy m) = Some gs ->
  findIndex playerId ps = Some ix ->
  (50 <= q1)%Q -> (q1 <= 550)%Q -> (50 <= q2)%Q -> (q2 <= 550)%Q ->
  let first := updatePlayerInput matchId playerId {| paddleY := JNumber (Num q1) |} w in
  fst first = true /\
  updatePlayerInput matchId playerId {| paddleY := JNumber (Num q2) |} (snd first) =
    updatePlayerInput matchId playerId {| paddleY := JNumber (Num q2) |} w.
Proof.
  intros Hm Hst Hps Hgs Hix H1 H2 H3 H4 first. subst first.
  rewrite (GameEngineSpec.updatePlayerInput_accepts w matchId playerId q1 m ps gs ix
             Hm Hst Hps Hgs Hix H1 H2).
  cbn [fst snd]. split; [reflexivity|].
  set (gs1 := match ix with players0 => _ | players1 => _ end).
  rewrite (GameEngineSpec.updatePlayerInput_accepts _ matchId playerId q2 m ps gs1 ix);
    try assumption; [|cbn; apply lookup_insert_eq].
  rewrite (GameEngineSpec.updatePlayerInput_accepts w matchId playerId q2 m ps gs ix
             Hm Hst Hps Hgs Hix H3 H4).
  f_equal. unfold set_stateHeap. cbn. rewrite insert_insert_eq.
  subst gs1. destruct ix; reflexivity.
Qed.

Lemma updatePlayerInput_last_write_wins_witness :
  let first := updatePlayerInput "m1" 2 {| paddleY := JNumber (Num 100) |}
                 Examples.playingWorld in
  fst first = true /\
  updatePlayerInput "m1" 2 {| paddleY := JNumber (Num 500) |} (snd first) =
    updatePlayerInput "m1" 2 {| paddleY := JNumber (Num 500) |} Examples.playingWorld.
Proof.
  apply (updatePlayerInput_last_write_wins Examples.playingWorld "m1" 2 100 500
           (Examples.engineM1 playing) (Examples.bobEntry, Examples.aliceEntry)
           (Examples.stateOf Examples.centredBall 0 0) players0).
  - vm_compute. reflexivity.
  - reflexivity.
  - vm_compute. reflexivity.
  - vm_compute. reflexivity.
  - reflexivity.
  - vm_compute. discriminate.
  - vm_compute. discriminate.
  - vm_compute. discriminate.
  - vm_compute. discriminate.
Defined.

Lemma endMatch_frame_other (matchId : string) (w : World) (m : EngineMatch) :
  matches w !! matchId = Some m ->
  (forall k, k <> matchId -> matches (endMatch matchId w) !! k = matches w !! k) /\
  (forall h, tickInterval m <> Some h -> timers (endMatch matchId w) !! h = timers w !! h) /\
  activeMatches (endMatch matchId w) = activeMatches w /\
  activeConnections (endMatch matchId w) = activeConnections w /\
  playersHeap (endMatch matchId w) = playersHeap w /\
  queue (endMatch matchId w) = queue w /\
  outbox (endMatch matchId w) = outbox w.
Proof.
  intros Hm. unfold endMatch. rewrite Hm.
  destruct (tickInterval m) as [h0|]; cbn; repeat split;
    try (intros k Hk; apply lookup_insert_ne; congruence).
  - intros h Hh. apply lookup_delete_ne. congruence.
Qed.

(** X20. A tick of one match touches the engine's record and the game state
    of that match only (and, at most, its tick interval): the other matches,
    their states and timers, the players, the queue, the connection records
    and [activeMatches] are unchanged, and nothing is emitted. *)
Theorem tick_touches_one_match (env : Env) (w : World) (matchId : string) (m : EngineMatch) :
  matches w !! matchId = Some m ->
  let w' := updateGameState env matchId w in
  (forall k, k <> matchId -> matches w' !! k = matches w !! k) /\
  (forall loc, loc <> gameState (copy m) -> stateHeap w' !! loc = stateHeap w !! loc) /\
  (forall h, tickInterval m <> Some h -> timers w' !! h = timers w !! h) /\
  activeMatches w' = activeMatches w /\
  activeConnections w' = activeConnections w /\
  playersHeap w' = playersHeap w /\
  queue w' = queue w /\
  outbox w' = outbox w.
Proof.
  intros Hm w'. subst w'. unfold updateGameState. rewrite Hm.
  destruct (bool_decide (status (copy m) = playing)); cbn [negb]; [|repeat split].
  destruct (stateHeap w !! gameState (copy m)) as [gs|]; [|repeat split].
  set (gs1 := stepState env _ gs).
  set (w2 := set_stateHeap _ (set_matches _ w)).
  assert (Hm2 : matches w2 !! matchId = Some (with_lastTick (now env) m))
    by (subst w2; cbn; apply lookup_insert_eq).
  destruct (endMatch_frame_other matchId w2 _ Hm2) as (E1 & E2 & E3 & E4 & E5 & E6 & E7).
  pose proof (GameEngineSpec.endMatch_stateHeap w2 matchId) as E8.
  destruct (_ || _);
    cbn [matches stateHeap timers activeMatches activeConnections playersHeap queue outbox
         set_stateHeap];
    rewrite ?E3, ?E4, ?E5, ?E6, ?E7, ?E8; subst w2; cbn;
    (split; [intros k Hk; rewrite ?E1 by exact Hk; cbn; apply lookup_insert_ne; congruence|]);
    (split; [intros loc Hloc; rewrite lookup_alter_ne by congruence;
             apply lookup_insert_ne; congruence|]);
    (split; [intros h Hh; rewrite ?E2 by exact Hh; reflexivity|]);
    repeat split.
Qed.

Lemma tick_touches_one_match_witness :
  let w' := updateGameState Examples.envTick "m1" Examples.playingWorld in
  activeMatches w' = activeMatches Examples.playingWorld /\
  outbox w' = outbox Examples.playingWorld /\
  timers w' !! 5%nat = timers Examples.playingWorld !! 5%nat.
Proof.
  destruct (tick_touches_one_match Examples.envTick Examples.playingWorld "m1"
              (Examples.engineM1 playing)) as (_ & _ & H3 & H4 & _ & _ & _ & H8).
  - vm_compute. reflexivity.
  - cbv zeta. split; [exact H4|]. split; [exact H8|]. apply H3. cbn. discriminate.
Defined.

End GameEngineExtra.

(** ** More on the tick in binary64 *)

Module GameEngine64Extra.
Import PrimFloat GameEngine64.

(** X31. After every tick of a playing match, in binary64: [lastTick] and
    [lastUpdate] are the time of the tick; the stored ball passes neither
    goal-line test (x <= 0, x >= 800); the paddles have not moved; either
    both scores are as they were, or one side has one point more and the
    ball is the one [resetBall] makes from the two random draws; and the
    match is completed, with its interval handle given to [clearInterval]
    and the side with more points as winner (the right side on a tie),
    exactly when a score is 11 or more afterwards - otherwise it keeps
    playing, nothing is cleared and no winner is set. *)
Theorem tick64_invariants (env : Env) (m : Match) :
  status m = playing ->
  let m' := fst (updateGameState env m) in
  let cleared := snd (updateGameState env m) in
  let gs := gameState m in
  let gs' := gameState m' in
  lastTick m' = number (now env) /\
  lastUpdate gs' = number (now env) /\
  (x (ball gs') <=? 0)%float = false /\ (800 <=? x (ball gs'))%float = false /\
  paddle_y (paddles_left gs') = paddle_y (paddles_left gs) /\
  paddle_y (paddles_right gs') = paddle_y (paddles_right gs) /\
  ((score (paddles_left gs') = score (paddles_left gs) /\
    score (paddles_right gs') = score (paddles_right gs)) \/
   (ball gs' = resetBall (random1 env) (random2 env) /\
    ((score (paddles_left gs') = score (paddles_left gs) + 1 /\
      score (paddles_right gs') = score (paddles_right gs)) \/
     (score (paddles_left gs') = score (paddles_left gs) /\
      score (paddles_right gs') = score (paddles_right gs) + 1)))) /\
  tickInterval m' = tickInterval m /\
  (if (11 <=? score (paddles_left gs')) || (11 <=? score (paddles_right gs'))
   then status m' = completed /\ cleared = tickInterval m /\
        winner m' = Some (if score (paddles_left gs') >? score (paddles_right gs')
                          then players0 else players1)
   else status m' = playing /\ cleared = None /\ winner m' = winner m).
Proof.
  intros Hst. cbv zeta. unfold updateGameState.
  rewrite bool_decide_eq_true_2 by exact Hst. cbn [negb].
  match goal with
  | |- context [handlePaddleCollision ?b0 ?l ?r] => set (b3 := handlePaddleCollision b0 l r)
  end.
  assert (H400a : (400 <=? 0)%float = false) by (vm_compute; reflexivity).
  assert (H400b : (800 <=? 400)%float = false) by (vm_compute; reflexivity).
  destruct (x b3 <=? 0)%float eqn:E0; [|destruct (800 <=? x b3)%float eqn:E8];
    cbn [paddles_left paddles_right incrScore score];
    (match goal with
     | |- context [if ?c then endMatch _ else _] => destruct c eqn:Eend
     end);
    cbn [endMatch with_lastUpdate fst snd gameState ball paddles_left paddles_right
         lastTick lastUpdate status tickInterval winner incrScore score paddle_y resetBall x];
    rewrite ?Eend, ?Hst, ?E0, ?E8;
    repeat (split; [first [reflexivity | assumption | tauto]|]);
    try (split; [|split; [reflexivity|]]);
    try tauto; try (repeat split; reflexivity).
  all: try (right; split; [reflexivity|]; tauto).
Qed.

(** At 10-10 the ball at x = 21 + 2^-48 moving left, ticked after 70 ms: the
    right side gets its eleventh point, the match is completed with
    [players[1]] as winner and interval 4 is cleared. *)
Lemma tick64_invariants_witness :
  let r := updateGameState (Examples64.at_ms 1070)
             (Examples64.playingMatch Examples64.grazing 10 10) in
  status (fst r) = completed /\ snd r = Some 4%nat /\ winner (fst r) = Some players1 /\
  score (paddles_right (gameState (fst r))) = 11 /\
  lastTick (fst r) = number 1070.
Proof.
  destruct (tick64_invariants (Examples64.at_ms 1070)
              (Examples64.playingMatch Examples64.grazing 10 10) eq_refl)
    as (H1 & _ & _ & _ & _ & _ & _ & _ & H9).
  cbv zeta.
  assert (Hs : score (paddles_right (gameState (fst (updateGameState (Examples64.at_ms 1070)
                 (Examples64.playingMatch Examples64.grazing 10 10))))) = 11)
    by (vm_compute; reflexivity).
  assert (Hl : score (paddles_left (gameState (fst (updateGameState (Examples64.at_ms 1070)
                 (Examples64.playingMatch Examples64.grazing 10 10))))) = 10)
    by (vm_compute; reflexivity).
  rewrite Hs, Hl in H9. cbn in H9. destruct H9 as (Hc & Hcl & Hw).
  rewrite Hc, Hcl, Hw, H1. repeat split.
Defined.

End GameEngine64Extra.

(** ** More on the socket handlers *)

Module HandlersExtra.
Import SocketHandlers.

(** X21. [match:ready] either leaves [activeMatches] as it was, or it
    replaces one entry of it: that of the current match of the sending
    socket, by the same match object with status playing and every other
    field as before. The second happens only when the sender is one of the
    two players and both players have their ready flag set afterwards. No
    other match is touched, added or dropped. *)
Theorem on_match_ready_gate (socket : Socket) (w : World) :
  let w' := on_match_ready socket w in
  activeMatches w' = activeMatches w \/
  exists k m m' ps,
    currentMatchOf socket w = Some k /\
    activeMatches w !! k = Some m /\
    activeMatches w' = <[k := m']> (activeMatches w) /\
    status m' = playing /\
    id m' = id m /\ roomId m' = roomId m /\ players m' = players m /\
    createdAt m' = createdAt m /\ gameState m' = gameState m /\
    currentMatch m' = currentMatch m /\
    playersHeap w' !! players m = Some ps /\
    ready (fst ps) = true /\ ready (snd ps) = true /\
    (socketId (player (fst ps)) = sock_id socket \/
     socketId (player (snd ps)) = sock_id socket).
Proof.
  cbv zeta. unfold on_match_ready.
  destruct (currentMatchOf socket w) as [mid|] eqn:Hcur; [|auto].
  destruct (activeMatches w !! mid) as [m|] eqn:Hm; [|auto].
  destruct (playersHeap w !! players m) as [ps|] eqn:Hps; [|auto].
  assert (Hgo : forall ps1 : QueueEntry * QueueEntry,
             socketId (player (fst ps1)) = sock_id socket \/
             socketId (player (snd ps1)) = sock_id socket ->
             let w1 := set_playersHeap <[players m := ps1]> w in
             let w' := if ready (fst ps1) && ready (snd ps1)
                       then emit (ToRoom (roomId m)) MatchStart
                              (set_activeMatches <[mid := with_status playing m]> w1)
                       else w1 in
             activeMatches w' = activeMatches w \/
             exists k m0 m' ps0,
               Some mid = Some k /\
               activeMatches w !! k = Some m0 /\
               activeMatches w' = <[k := m']> (activeMatches w) /\
               status m' = playing /\
               id m' = id m0 /\ roomId m' = roomId m0 /\ players m' = players m0 /\
               createdAt m' = createdAt m0 /\ gameState m' = gameState m0 /\
               currentMatch m' = currentMatch m0 /\
               playersHeap w' !! players m0 = Some ps0 /\
               ready (fst ps0) = true /\ ready (snd ps0) = true /\
               (socketId (player (fst ps0)) = sock_id socket \/
                socketId (player (snd ps0)) = sock_id socket)).
  { intros ps1 Hsock. cbv zeta.
    destruct (ready (fst ps1) && ready (snd ps1)) eqn:Hready; [|left; reflexivity].
    right. exists mid, m, (with_status playing m), ps1.
    apply andb_true_iff in Hready. destruct Hready as [Hr0 Hr1].
    cbn [emit set_outbox set_activeMatches set_playersHeap activeMatches playersHeap
         with_status status id roomId players createdAt gameState currentMatch].
    rewrite lookup_insert_eq. repeat split; assumption. }
  destruct (String.eqb_spec (socketId (player (fst ps))) (sock_id socket)) as [E0|E0].
  - apply Hgo. left. exact E0.
  - destruct (String.eqb_spec (socketId (player (snd ps))) (sock_id socket)) as [E1|E1]; [|auto].
    apply Hgo. right. exact E1.
Qed.

(** bob's [match:ready] alone changes no match; alice's, after his, starts
    match "m1". *)
Lemma on_match_ready_gate_witness :
  activeMatches MoreExamples.bobReady = activeMatches MoreExamples.bound /\
  activeMatches MoreExamples.bothReady !! "m1" = Some (Examples.m1 playing).
Proof.
  split.
  - destruct (on_match_ready_gate Examples.bob MoreExamples.bound)
      as [H|(k & m & m' & ps & Hk & Hm & _ & _ & _ & _ & _ & _ & _ & _ & Hps & _ & Hr & _)].
    + exact H.
    + exfalso. vm_compute in Hk. injection Hk as <-.
      vm_compute in Hm. injection Hm as <-.
      vm_compute in Hps. injection Hps as <-. discriminate Hr.
  - destruct (on_match_ready_gate Examples.alice MoreExamples.bobReady)
      as [H|(k & m & m' & ps & Hk & Hm & Hmap & Hst & Hid & Hroom & Hpl & Hcr & Hgs & Hcm & _)].
    + exfalso.
      assert (Hn := f_equal (fun a => a !! "m1") H).
      vm_compute in Hn. discriminate Hn.
    + vm_compute in Hk. injection Hk as <-.
      vm_compute in Hm. injection Hm as <-.
      unfold MoreExamples.bothReady. rewrite Hmap, lookup_insert_eq.
      destruct m'. cbn in Hst, Hid, Hroom, Hpl, Hcr, Hgs, Hcm. subst. reflexivity.
Defined.

(** X22. Once both ready flags are set, a [match:ready] from either player
    sets the status to playing and emits [match:start] to the room, whatever
    the status was before (also from paused); the engine's record, the game
    state and the scheduler are unchanged. *)
Theorem on_match_ready_sets_playing (socket : Socket) (w : World) (k : string) (m : Match)
    (p0 p1 : QueueEntry) :
  currentMatchOf socket w = Some k ->
  activeMatches w !! k = Some m ->
  playersHeap w !! players m = Some (p0, p1) ->
  ready p0 = true -> ready p1 = true ->
  sock_id socket = socketId (player p0) \/ sock_id socket = socketId (player p1) ->
  let w' := on_match_ready socket w in
  activeMatches w' !! k = Some (with_status playing m) /\
  outbox w' = outbox w ++ [(ToRoom (roomId m), MatchStart)] /\
  matches w' = matches w /\ stateHeap w' = stateHeap w /\ timers w' = timers w.
Proof.
  intros Hcur Hm Hps Hr0 Hr1 Hsock w'. subst w'. unfold on_match_ready.
  rewrite Hcur, Hm, Hps. cbn [fst snd].
  destruct (String.eqb_spec (socketId (player p0)) (sock_id socket)) as [E0|E0].
  - cbn [with_ready ready fst snd andb]. rewrite Hr1. cbn. rewrite lookup_insert_eq.
    repeat split.
  - destruct (String.eqb_spec (socketId (player p1)) (sock_id socket)) as [E1|E1].
    + cbn [with_ready ready fst snd andb]. rewrite Hr0. cbn. rewrite lookup_insert_eq.
      repeat split.
    + destruct Hsock; congruence.
Qed.


(** Match "m1" was started, alice's socket went away (paused); bob's next
    [match:ready] puts it back to playing. *)
Lemma on_match_ready_sets_playing_witness :
  (exists m, activeMatches MoreExamples.pausedAfterStart !! "m1" = Some m /\ status m = paused) /\
  activeMatches MoreExamples.resumed !! "m1" = Some (Examples.m1 playing).
Proof.
  split; [eexists; split; [vm_compute; reflexivity|reflexivity]|].
  destruct (on_match_ready_sets_playing Examples.bob MoreExamples.pausedAfterStart "m1"
              (Examples.m1 paused) (with_ready Examples.bobEntry)
              (with_ready Examples.aliceEntry)) as (H & _).
  - vm_compute. reflexivity.
  - vm_compute. reflexivity.
  - vm_compute. reflexivity.
  - reflexivity.
  - reflexivity.
  - left. reflexivity.
  - exact H.
Defined.

Lemma updatePlayerInput_false (matchId : string) (playerId : Z) (input : GameEngine.Input)
    (w : World) :
  fst (GameEngine.updatePlayerInput matchId playerId input w) = false ->
  snd (GameEngine.updatePlayerInput matchId playerId input w) = w.
Proof.
  unfold GameEngine.updatePlayerInput.
  destruct (matches w !! matchId) as [m|]; [|reflexivity].
  destruct (negb _); [reflexivity|].
  destruct (playersHeap w !! players (copy m)); [|reflexivity].
  destruct (stateHeap w !! gameState (copy m)); [|reflexivity].
  destruct (GameEngine.findIndex playerId _); [|reflexivity].
  destruct (negb _); [reflexivity|].
  destruct (GameEngine.paddleY input); try reflexivity. discriminate.
Qed.

(** X23. For a socket with a current match, [game:input] is
    [updatePlayerInput] for that match and the socket's user: an accepted
    input emits nothing, a refused one leaves the world as it was except for
    the error "Invalid game input". *)
Theorem on_game_input_delegates (socket : Socket) (data : GameEngine.Input) (w : World)
    (mid : string) :
  currentMatchOf socket w = Some mid ->
  let r := GameEngine.updatePlayerInput mid (sock_userId socket) data w in
  (fst r = true ->
     on_game_input socket data w = snd r /\ outbox (snd r) = outbox w) /\
  (fst r = false ->
     on_game_input socket data w =
       emit (ToSocket (sock_id socket)) (ErrorMsg "Invalid game input") w).
Proof.
  intros Hcur r. unfold on_game_input. rewrite Hcur. fold r.
  pose proof (updatePlayerInput_false mid (sock_userId socket) data w) as Hfalse. fold r in Hfalse.
  destruct r as [[|] w1] eqn:Er; cbn [fst snd] in *.
  - split; [|discriminate]. intros _. split; [reflexivity|].
    subst r. unfold GameEngine.updatePlayerInput in Er.
    destruct (matches w !! mid) as [m|]; [|discriminate].
    destruct (negb _); [discriminate|].
    destruct (playersHeap w !! players (copy m)); [|discriminate].
    destruct (stateHeap w !! gameState (copy m)); [|discriminate].
    destruct (GameEngine.findIndex _ _); [|discriminate].
    destruct (negb _); [discriminate|].
    destruct (GameEngine.paddleY data); try discriminate.
    injection Er as <-. reflexivity.
  - split; [discriminate|]. intros _. rewrite (Hfalse eq_refl). reflexivity.
Qed.

(** Match "m1" has not started: bob's input is refused, with an error only. *)
Lemma on_game_input_delegates_witness :
  on_game_input Examples.bob {| GameEngine.paddleY := JNumber (Num 300) |} MoreExamples.bound =
    emit (ToSocket "socket-b") (ErrorMsg "Invalid game input") MoreExamples.bound.
Proof.
  destruct (on_game_input_delegates Examples.bob {| GameEngine.paddleY := JNumber (Num 300) |}
              MoreExamples.bound "m1") as [_ H].
  - vm_compute. reflexivity.
  - apply H. vm_compute. reflexivity.
Defined.

(** X24. Joining the queue without finding a partner and then leaving it
    gives back the queue, the expansion timeouts and the scheduler as they
    were; the two answers are [matchmaking:queued], with the position, and
    [matchmaking:left]. *)
Theorem join_then_leave (env : Env) (socket : Socket) (user : UserRow) (w : World) :
  row_id user = sock_userId socket ->
  (forall x, In x (queue w) -> userId (player x) <> row_id user) ->
  searchTimeouts w !! row_id user = None ->
  timers w !! fresh w = None ->
  (forall x, In x (queue w) ->
     compatible (newEntry env {| userId := row_id user; socketId := sock_id socket;
                                 username := row_username user;
                                 displayName := row_display_name user;
                                 rating := row_rating user |}) x = false) ->
  let w1 := on_matchmaking_join env socket (QueryRow (Some user)) w in
  let w2 := on_matchmaking_leave socket w1 in
  queue w2 = queue w /\
  searchTimeouts w2 = searchTimeouts w /\
  timers w2 = timers w /\
  activeMatches w2 = activeMatches w /\
  matches w2 = matches w /\
  outbox w2 = outbox w ++
    [(ToSocket (sock_id socket),
      MatchmakingQueued (Z.of_nat (S (length (queue w))))
        (Z.max 30 (Z.of_nat (S (length (queue w))) * 15)));
     (ToSocket (sock_id socket), MatchmakingLeft)].
Proof.
  intros Huid Habsent Hst Ht Hnone w1 w2.
  set (p := {| userId := row_id user; socketId := sock_id socket;
               username := row_username user; displayName := row_display_name user;
               rating := row_rating user |}) in *.
  assert (Hw0 : MatchmakingService.removeFromQueue (row_id user) w = w).
  { unfold MatchmakingService.removeFromQueue. cbn. rewrite Hst.
    destruct w. unfold set_queue. cbn in *. f_equal.
    apply MatchmakingExtra.filter_all. intros x Hx.
    apply negb_true_iff, Z.eqb_neq. apply Habsent. exact Hx. }
  assert (Hadd : MatchmakingService.addToQueue env p w =
                   (None, MatchmakingService.setExpandingSearch (row_id user)
                            (set_queue (fun q => q ++ [newEntry env p]) w))).
  { rewrite (MatchmakingExtra.addToQueue_no_partner_eq env p w).
    - change (userId p) with (row_id user). rewrite Hw0. reflexivity.
    - intros x Hx _. apply Hnone. exact Hx. }
  subst w2 w1. unfold on_matchmaking_join, on_matchmaking_leave. fold p.
  rewrite Hadd, <- Huid. cbv beta iota zeta.
  set (w3 := emit _ (MatchmakingQueued _ _) _).
  assert (Hst3 : searchTimeouts w3 !! row_id user = Some (fresh w))
    by (subst w3; cbn; apply lookup_insert_eq).
  unfold MatchmakingService.removeFromQueue. cbn [set_queue searchTimeouts].
  rewrite Hst3. subst w3.
  cbn [emit set_outbox set_queue set_searchTimeouts set_timers set_fresh clearTimer
       MatchmakingService.setExpandingSearch schedule
       queue searchTimeouts timers activeMatches matches outbox].
  split; [|split; [|split; [|split; [|split]]]].
  - rewrite List.filter_app. cbn. rewrite Z.eqb_refl. cbn. rewrite app_nil_r.
    apply MatchmakingExtra.filter_all. intros x Hx.
    apply negb_true_iff, Z.eqb_neq. apply Habsent. exact Hx.
  - apply delete_insert_id. exact Hst.
  - apply delete_insert_id. exact Ht.
  - reflexivity.
  - reflexivity.
  - rewrite length_app, Nat.add_1_r, <- app_assoc. reflexivity.
Qed.

(** alice joins the empty queue and leaves again. *)
Lemma join_then_leave_witness :
  let w2 := on_matchmaking_leave Examples.alice Examples.aliceQueued in
  queue w2 = [] /\ timers w2 = ∅ /\ searchTimeouts w2 = ∅.
Proof.
  destruct (join_then_leave Examples.env0 Examples.alice Examples.aliceRow Examples.connected)
    as (H1 & H2 & H3 & _).
  - reflexivity.
  - intros x [].
  - vm_compute. reflexivity.
  - vm_compute. reflexivity.
  - intros x [].
  - cbv zeta. split; [exact H1|]. split; [exact H3|exact H2].
Defined.


Lemma engine_createMatch_eq (env : Env) (m : Match) (w : World) :
  GameEngine.createMatch env m w =
    set_matches <[id m := {| copy := m; lastTick := now env;
                             tickInterval := Some (fresh w); winner := None |}]>
      (set_fresh S
         (set_timers <[fresh w := {| callback := TickInterval (id m);
                                     delay := 1000 / GameEngine.tickRate;
                                     repeating := true |}]> w)).
Proof.
  unfold GameEngine.createMatch, GameEngine.startGameLoop. cbn [matches set_matches].
  rewrite lookup_insert_eq. unfold schedule, GameEngine.with_tickInterval.
  destruct w. unfold set_matches, set_fresh, set_timers. cbn. f_equal.
  apply insert_insert_eq.
Qed.

(** X25. [handleMatchFound] tells each player the name and rating of the
    other, puts both sockets in the match room, registers the match with the
    engine together with its tick interval, and schedules the countdown
    timeout of 2000 ms. *)
Theorem handleMatchFound_notifies (env : Env) (m : Match) (w : World) (p0 p1 : QueueEntry) :
  playersHeap w !! players m = Some (p0, p1) ->
  userId (player p0) <> userId (player p1) ->
  let w' := handleMatchFound env m w in
  outbox w' = outbox w ++
    [(ToSocket (socketId (player p0)),
      MatchFound (id m) (roomId m) (Some (username (player p1))) (Some (rating (player p1))));
     (ToSocket (socketId (player p1)),
      MatchFound (id m) (roomId m) (Some (username (player p0))) (Some (rating (player p0))))] /\
  socketId (player p0) ∈ recipients w' (ToRoom (roomId m)) /\
  socketId (player p1) ∈ recipients w' (ToRoom (roomId m)) /\
  matches w' !! id m =
    Some {| copy := m; lastTick := now env; tickInterval := Some (fresh w); winner := None |} /\
  timers w' !! fresh w =
    Some {| callback := TickInterval (id m); delay := 1000 / 60; repeating := true |} /\
  timers w' !! S (fresh w) =
    Some {| callback := Countdown (id m) (roomId m); delay := 2000; repeating := false |} /\
  exists m', activeMatches w' !! id m = Some m' /\ status m' = status m /\
             players m' = players m /\ gameState m' = gameState m.
Proof.
  intros Hps Hne w'. subst w'. unfold handleMatchFound.
  rewrite engine_createMatch_eq.
  cbn [playersHeap set_matches set_fresh set_timers set_activeMatches].
  rewrite Hps. unfold updatePlayer, findPlayer, schedule, emit, join.
  cbn [fst snd outbox rooms matches timers fresh activeMatches recipients
       set_outbox set_rooms set_activeMatches set_matches set_fresh set_timers].
  assert (E01 : (userId (player p0) =? userId (player p1)) = false) by (apply Z.eqb_neq; exact Hne).
  assert (E10 : (userId (player p1) =? userId (player p0)) = false)
    by (apply Z.eqb_neq; congruence).
  rewrite !Z.eqb_refl, E01, E10. cbn [negb option_map].
  split; [rewrite <- app_assoc; reflexivity|].
  rewrite !lookup_insert_eq. cbn [default].
  split; [set_solver|]. split; [set_solver|].
  split; [reflexivity|].
  split; [rewrite lookup_insert_ne by lia; apply lookup_insert_eq|].
  split; [reflexivity|].
  assert (Hbase : <[id m := m]> (activeMatches w) !! id m = Some m) by apply lookup_insert_eq.
  destruct (decide (socketId (player p0) = id m)) as [E0|E0];
    destruct (decide (socketId (player p1) = id m)) as [E1|E1];
    rewrite ?E0, ?E1;
    rewrite ?lookup_alter_eq, ?lookup_alter_ne by congruence;
    rewrite ?lookup_alter_eq, ?lookup_alter_ne by congruence;
    rewrite Hbase; cbn; eexists; (split; [reflexivity|]); repeat split.
Qed.

Lemma handleMatchFound_notifies_witness :
  let w' := handleMatchFound Examples.env0 (Examples.m1 starting) MoreExamples.paired in
  outbox w' = outbox MoreExamples.paired ++
    [(ToSocket "socket-b", MatchFound "m1" "game-m1" (Some "alice") (Some 1200));
     (ToSocket "socket-a", MatchFound "m1" "game-m1" (Some "bob") (Some 1300))] /\
  "socket-a" ∈ recipients w' (ToRoom "game-m1") /\
  "socket-b" ∈ recipients w' (ToRoom "game-m1").
Proof.
  destruct (handleMatchFound_notifies Examples.env0 (Examples.m1 starting) MoreExamples.paired
              Examples.bobEntry Examples.aliceEntry) as (H1 & H2 & H3 & _).
  - vm_compute. reflexivity.
  - cbn. lia.
  - cbv zeta. split; [exact H1|]. split; [exact H3|exact H2].
Defined.

(** X26. The countdown timeout fires once: it leaves the scheduler, emits
    [match:countdown] with 3 seconds to the room exactly when the match is
    still stored with status starting, changes no match, and firing the same
    handle again does nothing. *)
Theorem countdown_fires_once (env : Env) (h : nat) (w : World) (k room : string) (d : Q) :
  timers w !! h = Some {| callback := Countdown k room; delay := d; repeating := false |} ->
  let w' := fire env h w in
  timers w' = delete h (timers w) /\
  ((exists m, activeMatches w !! k = Some m /\ status m = starting) ->
     outbox w' = outbox w ++ [(ToRoom room, MatchCountdown 3)]) /\
  ((forall m, activeMatches w !! k = Some m -> status m <> starting) ->
     outbox w' = outbox w) /\
  activeMatches w' = activeMatches w /\
  matches w' = matches w /\
  fire env h w' = w'.
Proof.
  intros Ht w'. subst w'.
  assert (Hgone : forall x : World, timers x = delete h (timers w) -> fire env h x = x).
  { intros x Hx. unfold fire. rewrite Hx, lookup_delete_eq. reflexivity. }
  assert (Hf : fire env h w = countdown k room (set_timers (delete h) w))
    by (unfold fire; rewrite Ht; reflexivity).
  rewrite Hf. unfold countdown. cbn [activeMatches set_timers].
  destruct (activeMatches w !! k) as [m|] eqn:Hm.
  - destruct (bool_decide (status m = starting)) eqn:Hs.
    + apply bool_decide_eq_true in Hs.
      split; [reflexivity|]. split; [intros _; reflexivity|].
      split; [intros H; exfalso; exact (H m eq_refl Hs)|].
      split; [reflexivity|]. split; [reflexivity|]. apply Hgone. reflexivity.
    + apply bool_decide_eq_false in Hs.
      split; [reflexivity|].
      split; [intros (m0 & Hm0 & Hs0); injection Hm0 as <-; contradiction|].
      split; [intros _; reflexivity|].
      split; [reflexivity|]. split; [reflexivity|]. apply Hgone. reflexivity.
  - split; [reflexivity|]. split; [intros (m0 & Hm0 & _); discriminate|].
    split; [intros _; reflexivity|]. split; [reflexivity|]. split; [reflexivity|].
    apply Hgone. reflexivity.
Qed.

Lemma countdown_fires_once_witness :
  let w' := fire Examples.envTick 5 Examples.matched in
  outbox w' = outbox Examples.matched ++ [(ToRoom "game-m1", MatchCountdown 3)] /\
  fire Examples.envTick 5 w' = w'.
Proof.
  destruct (countdown_fires_once Examples.envTick 5 Examples.matched "m1" "game-m1" 2000)
    as (_ & H2 & _ & _ & _ & H6).
  - vm_compute. reflexivity.
  - cbv zeta. split; [|exact H6]. apply H2. eexists. split; [vm_compute; reflexivity|reflexivity].
Defined.

(** X27. When the grace timeout of a disconnection fires and the match is
    no longer paused (or no longer stored), nothing happens except that the
    timeout leaves the scheduler. *)
Theorem grace_timeout_spares_resumed_match (env : Env) (h : nat) (w : World)
    (k room : string) (ref : nat) (sid : string) (d : Q) :
  timers w !! h =
    Some {| callback := GraceTimeout k room ref sid; delay := d; repeating := false |} ->
  (forall m, activeMatches w !! k = Some m -> status m <> paused) ->
  fire env h w = set_timers (delete h) w.
Proof.
  intros Ht Hnp. unfold fire. rewrite Ht. cbn [repeating callback].
  unfold graceTimeout. cbn [activeMatches set_timers].
  destruct (activeMatches w !! k) as [m|] eqn:Hm; [|reflexivity].
  rewrite bool_decide_eq_false_2 by (apply Hnp; reflexivity). reflexivity.
Qed.

(** bob has resumed match "m1" before alice's grace timeout fires. *)
Lemma grace_timeout_spares_resumed_match_witness :
  let w' := fire Examples.envTick 6 MoreExamples.resumed in
  activeMatches w' !! "m1" = Some (Examples.m1 playing) /\
  outbox w' = outbox MoreExamples.resumed /\
  timers w' !! 6%nat = None.
Proof.
  cbv zeta.
  rewrite (grace_timeout_spares_resumed_match Examples.envTick 6 MoreExamples.resumed
             "m1" "game-m1" 2 "socket-a" 30000).
  - split; [vm_compute; reflexivity|]. split; [vm_compute; reflexivity|].
    vm_compute. reflexivity.
  - vm_compute. reflexivity.
  - intros m Hm. vm_compute in Hm. injection Hm as <-. discriminate.
Defined.

End HandlersExtra.

(** ** Disconnection in server.js *)

Module ServerExtra.
Import SocketHandlers EnhancedPongServer DisconnectHandler.

(** X28. Once [handleDisconnection] of server.js has run for a socket, its
    connection record is gone, so the part of the [disconnect] handler of
    socketHandlers.js that runs after the database update does nothing:
    [handlePlayerDisconnect] is not called. *)
Theorem resume_after_handleDisconnection (socket : Socket) (st : ServerState) :
  let w := world (handleDisconnection (sock_id socket) st) in
  activeConnections w !! sock_id socket = None /\
  on_disconnect_resume socket w = w.
Proof.
  cbv zeta.
  assert (Hnone : activeConnections (world (handleDisconnection (sock_id socket) st))
                    !! sock_id socket = None).
  { unfold handleDisconnection.
    destruct (activeConnections (world st) !! sock_id socket) eqn:E; [|exact E].
    cbn. apply lookup_delete_eq. }
  split; [exact Hnone|].
  unfold on_disconnect_resume, currentMatchOf. rewrite Hnone. reflexivity.
Qed.



(** X30. [handleDisconnection] for a player of a stored match removes the
    connection record, notifies the other player with
    [opponent-disconnected], broadcasts the statistics and schedules the end
    of the match; the match object itself is not changed (its status is not
    set to paused). When that timeout fires the match leaves [activeMatches],
    and the engine still holds its record. *)
Theorem handleDisconnection_in_match (sid : string) (st : ServerState) (c c1 : Connection)
    (mid : string) (m : Match) (p0 p1 : QueueEntry) :
  activeConnections (world st) !! sid = Some c ->
  conn_currentMatch c = Some mid -> mid <> ""%string ->
  activeMatches (world st) !! mid = Some m ->
  id m = mid ->
  playersHeap (world st) !! players m = Some (p0, p1) ->
  socketId (player p0) <> socketId (player p1) ->
  sid = socketId (player p0) \/ sid = socketId (player p1) ->
  let remaining := if String.eqb sid (socketId (player p0)) then p1 else p0 in
  activeConnections (world st) !! socketId (player remaining) = Some c1 ->
  let st' := handleDisconnection sid st in
  activeConnections (world st') = delete sid (activeConnections (world st)) /\
  activeMatches (world st') = activeMatches (world st) /\
  matches (world st') = matches (world st) /\
  outbox (world st') = outbox (world st) /\
  pendingEnds st' !! nextHandle st = Some mid /\
  emitted st' = emitted st ++
    [OpponentDisconnected (socketId (player remaining)) mid "Your opponent has disconnected";
     ServerStats (size (delete sid (activeConnections (world st))))
                 (size (activeMatches (world st)))
                 (length (List.filter (fun p => negb (String.eqb (socketId p) sid))
                                      (matchmakingQueue st)))] /\
  activeMatches (world (firePendingEnd (nextHandle st) st')) !! mid = None /\
  matches (world (firePendingEnd (nextHandle st) st')) = matches (world st).
Proof.
  intros Hc Hcur Hmid Hm Hid Hps Hne Hsid remaining Hc1 st'. subst st'.
  assert (Hmid' : String.eqb mid "" = false) by (apply String.eqb_neq; exact Hmid).
  assert (Hst' : handleDisconnection sid st =
    {| world := set_activeConnections (delete sid) (world st);
       matchmakingQueue := List.filter (fun p => negb (String.eqb (socketId p) sid))
                             (matchmakingQueue st);
       pendingEnds := <[nextHandle st := mid]> (pendingEnds st);
       nextHandle := S (nextHandle st);
       emitted := emitted st ++
         [OpponentDisconnected (socketId (player remaining)) mid
            "Your opponent has disconnected";
          ServerStats (size (delete sid (activeConnections (world st))))
                      (size (activeMatches (world st)))
                      (length (List.filter (fun p => negb (String.eqb (socketId p) sid))
                                           (matchmakingQueue st)))] |}).
  { unfold handleDisconnection. rewrite Hc, Hcur, Hmid'.
    cbn [world]. rewrite Hm. unfold handleMatchDisconnection. cbn [world]. rewrite Hps.
    unfold notifyOpponent. cbn [fst snd world emitted serverEmit].
    subst remaining. destruct Hsid as [-> | ->].
    - rewrite String.eqb_refl in *.
      destruct (String.eqb_spec (socketId (player p1)) (socketId (player p0))) as [E|E];
        [congruence|].
      cbn [world]. rewrite Hc1. unfold broadcastServerStats, serverEmit, with_world.
      cbn. rewrite Hid, <- app_assoc. reflexivity.
    - destruct (String.eqb_spec (socketId (player p1)) (socketId (player p0))) as [E|E];
        [congruence|].
      destruct (String.eqb_spec (socketId (player p0)) (socketId (player p1))) as [E'|E'];
        [congruence|].
      cbn [world]. rewrite Hc1. rewrite String.eqb_refl.
      unfold broadcastServerStats, serverEmit, with_world.
      cbn. rewrite Hid, <- app_assoc. reflexivity. }
  rewrite Hst'. cbn [world pendingEnds emitted set_activeConnections activeConnections
                     activeMatches matches outbox].
  split; [reflexivity|]. split; [reflexivity|]. split; [reflexivity|]. split; [reflexivity|].
  split; [apply lookup_insert_eq|]. split; [reflexivity|].
  unfold firePendingEnd. cbn [pendingEnds world]. rewrite lookup_insert_eq.
  cbn [world set_activeConnections activeMatches]. rewrite Hm.
  unfold endMatch. cbn [world set_activeConnections activeMatches playersHeap].
  rewrite Hm, Hps. cbn. split; [apply lookup_delete_eq|reflexivity].
Qed.

Lemma handleDisconnection_in_match_witness :
  let st := MoreExamples.serverOf MoreExamples.bound in
  let st' := handleDisconnection "socket-a" st in
  activeMatches (world st') = activeMatches MoreExamples.bound /\
  emitted st' =
    [OpponentDisconnected "socket-b" "m1" "Your opponent has disconnected";
     ServerStats 1 1 0] /\
  activeMatches (world (firePendingEnd 0 st')) !! "m1" = None.
Proof.
  intros st.
  destruct (handleDisconnection_in_match "socket-a" st
              {| conn_userId := Some 1; conn_currentMatch := Some "m1"; conn_joinedAt := 1000 |}
              {| conn_userId := Some 2; conn_currentMatch := Some "m1"; conn_joinedAt := 1000 |}
              "m1" (Examples.m1 starting) Examples.bobEntry Examples.aliceEntry)
    as (_ & H2 & _ & _ & _ & H6 & H7 & _).
  - vm_compute. reflexivity.
  - reflexivity.
  - discriminate.
  - vm_compute. reflexivity.
  - reflexivity.
  - vm_compute. reflexivity.
  - cbn. discriminate.
  - right. reflexivity.
  - vm_compute. reflexivity.
  - cbv zeta. split; [exact H2|]. split; [rewrite H6; vm_compute; reflexivity|exact H7].
Defined.

End ServerExtra.
